(** * HeroCanvas: the render-loop lifecycle of the animated hero background

    A shallow embedding of the React component [HeroCanvas]
    (HeroCanvas.lazy.tsx): the capability probe, the initialisation of
    the three.js scene, the [animate] callback and the cleanup of the
    initialisation effect.

    JavaScript numbers are modelled as rationals ([Q]), without
    rounding: the component only adds, subtracts, multiplies, divides
    and compares them, and passes them to [Math.cos] and [Math.sin],
    which are taken from the host together with [Math.PI] and
    [Math.random].  The one quotient whose divisor can be 0, the aspect
    of the camera, is JavaScript's, with [Infinity] and [NaN]
    ([js_div]).

    The objects that [animate] mutates ([core], [orbitsRef.current])
    live in the closure of the loop; the scene graph that the cleanup
    traverses carries the geometries and materials only, which no frame
    changes.  What React does is modelled as far as the component
    relies on it: an effect runs again, after its cleanup, when one of
    its dependencies changed; a render with [error] set throws and the
    component is unmounted; at unmount the ref of the host [div] is
    detached before the cleanup runs.  The lights' parameters and the
    clock are left out: the elapsed time that [getDelta()] returns
    comes with each frame.  The camera, the size of the renderer and
    [handleResize] live in [Page], around the component; the capability
    check and the wallet button of the hero section that mounts the
    canvas come last among the definitions. *)

From Stdlib Require Import QArith Lqa Lia List Bool Arith Finite.
From Stdlib Require String.
Import String.StringSyntax.
Delimit Scope string_scope with string.
Import ListNotations.

Open Scope Q_scope.

(** ** Numbers read from the host *)

(** A property of [navigator] that a browser may leave out:
    [navigator.hardwareConcurrency], [navigator.deviceMemory]. *)
Inductive JsNumber : Type :=
| JsUndefined
| JsNum (q : Q).

(** [v || d] for a number-or-undefined [v]: [undefined] and [0] are falsy. *)
Definition or_default (v : JsNumber) (d : Q) : Q :=
  match v with
  | JsUndefined => d
  | JsNum q => if Qeq_bool q 0 then d else q
  end.

Record Navigator : Type := {
  hardwareConcurrency : JsNumber;
  deviceMemory : JsNumber
}.

(** ** Quality tier *)

Inductive PerformanceLevel : Type := low | high.

Definition PerformanceLevel_eqb (a b : PerformanceLevel) : bool :=
  match a, b with
  | low, low | high, high => true
  | _, _ => false
  end.

(** Lines 22-30. *)
Definition getPerformanceLevel (navigator : Navigator) : PerformanceLevel :=
  let hardwareConcurrency := or_default (hardwareConcurrency navigator) 4 in
  let memory := or_default (deviceMemory navigator) 4 in
  if Qle_bool hardwareConcurrency 4 || Qle_bool memory 4 then low else high.

(** Line 77: [antialias: performanceLevel === 'high']. *)
Definition antialias_of (performanceLevel : PerformanceLevel) : bool :=
  PerformanceLevel_eqb performanceLevel high.

(** Line 105: [performanceLevel === 'high' ? 12 : 8]. *)
Definition orbitCount (performanceLevel : PerformanceLevel) : nat :=
  if PerformanceLevel_eqb performanceLevel high then 12%nat else 8%nat.

(** Lines 158-159. *)
Definition targetFPS (performanceLevel : PerformanceLevel) : Q :=
  if PerformanceLevel_eqb performanceLevel high then 60 else 30.

Definition frameInterval (performanceLevel : PerformanceLevel) : Q :=
  1000 / targetFPS performanceLevel.

(** ** The host's [Math] object *)

(** [Math.cos], [Math.sin] and [Math.PI] are not rational; the component
    only applies them, so they are fields of the host.  [Math_random n]
    is the result of the [n]-th call of [Math.random()]. *)
Record Host : Type := {
  Math_cos : Q -> Q;
  Math_sin : Q -> Q;
  Math_PI : Q;
  Math_random : nat -> Q;
  navigator : Navigator;
  WebGLRenderingContext : bool      (* [window.WebGLRenderingContext] is defined *)
}.

(** ** Scene objects *)

Module Vec3.
Record t : Type := { x : Q; y : Q; z : Q }.
Definition zero : t := {| x := 0; y := 0; z := 0 |}.
End Vec3.

(** A resource that three.js releases with [dispose()]. *)
Inductive Resource : Type :=
| Geometry (id : nat)
| Material (id : nat).

Definition Resource_eq_dec (a b : Resource) : {a = b} + {a <> b}.
Proof. decide equality; apply Nat.eq_dec. Defined.

(** A [THREE.Mesh]: a new mesh sits at the origin with no rotation. *)
Record Mesh : Type := {
  geometry : Resource;
  material : Resource;
  position : Vec3.t;
  rotation : Vec3.t
}.

Definition newMesh (g m : Resource) : Mesh :=
  {| geometry := g; material := m; position := Vec3.zero; rotation := Vec3.zero |}.

(** [orbitSphere.userData], lines 120-126. *)
Record UserData : Type := {
  radius : Q;
  angle : Q;
  height : Q;
  speed : Q;
  verticalSpeed : Q
}.

(** An orbiting sphere: the mesh and its [userData]. *)
Record Orbit : Type := {
  mesh : Mesh;
  userData : UserData
}.

(** ** The animation loop *)

(** The closure of [animate] for one run of [initThreeJS]: the props and
    state the run captured ([paused], [prefersReducedMotion],
    [isVisible]), the local [mounted] and [lastFrameTime], the tier, and
    the objects the callback mutates ([core], [orbitsRef.current]).
    [rendered] logs the calls of [renderer.render(scene, camera)] by
    their [currentTime], newest first; [requested] counts the calls of
    [requestAnimationFrame(animate)]. *)
Record Loop : Type := {
  mounted : bool;
  isVisible : bool;
  paused : bool;
  prefersReducedMotion : bool;
  performanceLevel : PerformanceLevel;
  lastFrameTime : Q;
  core : Mesh;
  orbits : list Orbit;
  rendered : list Q;
  requested : nat
}.

(** [frameRef.current = requestAnimationFrame(animate)]. *)
Definition requestAnimationFrame (l : Loop) : Loop :=
  {| mounted := mounted l; isVisible := isVisible l; paused := paused l;
     prefersReducedMotion := prefersReducedMotion l;
     performanceLevel := performanceLevel l;
     lastFrameTime := lastFrameTime l;
     core := core l; orbits := orbits l;
     rendered := rendered l; requested := S (requested l) |}.

(** [renderer.render(scene, camera); lastFrameTime = currentTime;]. *)
Definition render (currentTime : Q) (l : Loop) : Loop :=
  {| mounted := mounted l; isVisible := isVisible l; paused := paused l;
     prefersReducedMotion := prefersReducedMotion l;
     performanceLevel := performanceLevel l;
     lastFrameTime := currentTime;
     core := core l; orbits := orbits l;
     rendered := currentTime :: rendered l; requested := requested l |}.

Section Animate.

Variable host : Host.

(** The body of the [forEach] callback, lines 173-182. *)
Definition moveSphere (deltaTime : Q) (sphere : Orbit) : Orbit :=
  let u := userData sphere in
  let angle' := angle u + speed u * deltaTime in
  let height' := height u + verticalSpeed u * deltaTime * 0.5 in
  let m := mesh sphere in
  {| mesh :=
       {| geometry := geometry m; material := material m;
          position :=
            {| Vec3.x := Math_cos host angle' * radius u;
               Vec3.y := Math_sin host height' * 0.3;
               Vec3.z := Math_sin host angle' * radius u |};
          rotation :=
            {| Vec3.x := Vec3.x (rotation m);
               Vec3.y := Vec3.y (rotation m) + deltaTime * 0.5;
               Vec3.z := Vec3.z (rotation m) |} |};
     userData :=
       {| radius := radius u; angle := angle'; height := height';
          speed := speed u; verticalSpeed := verticalSpeed u |} |}.

(** Lines 186-187. *)
Definition rotateCore (deltaTime : Q) (c : Mesh) : Mesh :=
  {| geometry := geometry c; material := material c;
     position := position c;
     rotation :=
       {| Vec3.x := Vec3.x (rotation c) + deltaTime * 0.1;
          Vec3.y := Vec3.y (rotation c) + deltaTime * 0.2;
          Vec3.z := Vec3.z (rotation c) |} |}.

(** The branch [if (!prefersReducedMotion)], lines 170-188. *)
Definition move (deltaTime : Q) (l : Loop) : Loop :=
  {| mounted := mounted l; isVisible := isVisible l; paused := paused l;
     prefersReducedMotion := prefersReducedMotion l;
     performanceLevel := performanceLevel l;
     lastFrameTime := lastFrameTime l;
     core := rotateCore deltaTime (core l);
     orbits := map (moveSphere deltaTime) (orbits l);
     rendered := rendered l; requested := requested l |}.

(** [animate], lines 161-195.  [deltaTime] is what
    [clockRef.current.getDelta()] returns when this call reaches it. *)
Definition animate (currentTime deltaTime : Q) (l : Loop) : Loop :=
  if negb (mounted l) || negb (isVisible l) || paused l then
    requestAnimationFrame l
  else
    let l1 :=
      if Qle_bool (frameInterval (performanceLevel l))
                  (currentTime - lastFrameTime l)
      then
        let l2 := if negb (prefersReducedMotion l)
                  then move deltaTime l else l in
        render currentTime l2
      else l in
    requestAnimationFrame l1.

(** The frame callbacks of a run, oldest first: each is a pair
    [(currentTime, deltaTime)]. *)
Definition ticks (fs : list (Q * Q)) (l : Loop) : Loop :=
  fold_left (fun l f => animate (fst f) (snd f) l) fs l.

End Animate.

(** The guard of line 162: the callback only schedules the next frame. *)
Definition suspended (l : Loop) : bool :=
  negb (mounted l) || negb (isVisible l) || paused l.

(** The guard of line 167: a frame interval has passed since the last
    rendered frame. *)
Definition due (currentTime : Q) (l : Loop) : bool :=
  Qle_bool (frameInterval (performanceLevel l)) (currentTime - lastFrameTime l).

(** ** The scene graph, as the cleanup sees it *)

(** [object.material] is one material or an array of materials. *)
Inductive MaterialSlot : Type :=
| OneMaterial (m : Resource)
| MaterialArray (ms : list Resource).

(** A [THREE.Object3D] with the fields the cleanup reads. *)
#[warnings="-register-all"]
Inductive Object3D : Type :=
| Object (geometry : option Resource) (material : option MaterialSlot)
         (children : list Object3D).

Definition children (o : Object3D) : list Object3D :=
  match o with Object _ _ cs => cs end.

(** [Object3D.traverse(callback)] of three.js calls [callback(this)] and
    then traverses each child: the objects in the order of the calls. *)
Fixpoint traverse (o : Object3D) : list Object3D :=
  match o with
  | Object _ _ cs => o :: flat_map traverse cs
  end.

(** The callback of lines 227-236: the [dispose()] calls it makes. *)
Definition disposeObject (o : Object3D) : list Resource :=
  match o with
  | Object g m _ =>
      match g with Some r => [r] | None => [] end ++
      match m with
      | Some (OneMaterial r) => [r]
      | Some (MaterialArray rs) => rs
      | None => []
      end
  end.

(** [sceneRef.current.traverse(...)], lines 227-236. *)
Definition disposeScene (scene : Object3D) : list Resource :=
  flat_map disposeObject (traverse scene).

(** A light: no geometry, no material, no children. *)
Definition light : Object3D := Object None None [].

Definition meshObject (m : Mesh) : Object3D :=
  Object (Some (geometry m)) (Some (OneMaterial (material m))) [].

(** The scene of lines 63-130: the two lights, the core, the spheres. *)
Definition sceneGraph (core : Mesh) (orbits : list Orbit) : Object3D :=
  Object None None
    (light :: light :: meshObject core
       :: map (fun o => meshObject (mesh o)) orbits).

(** ** The component *)

(** The dependencies of the initialisation effect, line 239, that can
    change ([getPerformanceLevel] is a [useCallback] with no
    dependencies and never changes). *)
Record Deps : Type := {
  dep_paused : bool;
  dep_prefersReducedMotion : bool;
  dep_isVisible : bool
}.

Definition Deps_eqb (a b : Deps) : bool :=
  Bool.eqb (dep_paused a) (dep_paused b)
  && Bool.eqb (dep_prefersReducedMotion a) (dep_prefersReducedMotion b)
  && Bool.eqb (dep_isVisible a) (dep_isVisible b).

(** Where the current run of the initialisation effect stands. *)
Inductive Stage : Type :=
| Bailed                      (* line 44: returned without a cleanup *)
| Importing (mounted : bool)  (* [initThreeJS] awaits [import('three')] *)
| Looping (l : Loop)          (* the animation loop runs *)
| Cancelled (l : Loop)        (* the cleanup cancelled the pending frame *)
| Finished.                   (* [initThreeJS] returned early or failed *)

Record EffectRun : Type := {
  deps : Deps;
  stage : Stage
}.

(** A [THREE.WebGLRenderer]: its canvas and its antialiasing option. *)
Record Renderer : Type := {
  domElement : nat;
  antialias : bool
}.

(** The state of a mounted [HeroCanvas] and of what it touches.
    [mountRef] tells whether [mountRef.current] is the host [div]
    ([false]: [null]); [container] lists the canvases attached to that
    [div].  [scenes] counts the calls of [new THREE.Scene()];
    [allocated] and [disposed] log the geometries and materials created
    and the [dispose()] calls on them, oldest first; [released] logs the
    canvases of the renderers disposed. *)
Record Component : Type := {
  prop_paused : bool;
  prop_prefersReducedMotion : bool;
  state_isVisible : bool;
  state_error : bool;
  mountRef : bool;
  container : list nat;
  rendererRef : option Renderer;
  sceneRef : option Object3D;
  effect : EffectRun;
  scenes : nat;
  allocated : list Resource;
  disposed : list Resource;
  released : list nat;
  nextId : nat;
  randoms : nat
}.

(** A cleanup returns or raises; either way it leaves a state. *)
Inductive Outcome : Type :=
| Returned (c : Component)
| Raised (c : Component).

Definition currentDeps (c : Component) : Deps :=
  {| dep_paused := prop_paused c;
     dep_prefersReducedMotion := prop_prefersReducedMotion c;
     dep_isVisible := state_isVisible c |}.

Definition with_effect (e : EffectRun) (c : Component) : Component :=
  {| prop_paused := prop_paused c;
     prop_prefersReducedMotion := prop_prefersReducedMotion c;
     state_isVisible := state_isVisible c; state_error := state_error c;
     mountRef := mountRef c; container := container c;
     rendererRef := rendererRef c; sceneRef := sceneRef c;
     effect := e;
     scenes := scenes c; allocated := allocated c; disposed := disposed c;
     released := released c; nextId := nextId c; randoms := randoms c |}.

Definition with_stage (s : Stage) (c : Component) : Component :=
  with_effect {| deps := deps (effect c); stage := s |} c.

(** [setError(err)]. *)
Definition setError (c : Component) : Component :=
  {| prop_paused := prop_paused c;
     prop_prefersReducedMotion := prop_prefersReducedMotion c;
     state_isVisible := state_isVisible c; state_error := true;
     mountRef := mountRef c; container := container c;
     rendererRef := rendererRef c; sceneRef := sceneRef c;
     effect := effect c;
     scenes := scenes c; allocated := allocated c; disposed := disposed c;
     released := released c; nextId := nextId c; randoms := randoms c |}.

(** [new THREE.Scene()]. *)
Definition newScene (c : Component) : Component :=
  {| prop_paused := prop_paused c;
     prop_prefersReducedMotion := prop_prefersReducedMotion c;
     state_isVisible := state_isVisible c; state_error := state_error c;
     mountRef := mountRef c; container := container c;
     rendererRef := rendererRef c; sceneRef := sceneRef c;
     effect := effect c;
     scenes := S (scenes c); allocated := allocated c;
     disposed := disposed c;
     released := released c; nextId := nextId c; randoms := randoms c |}.

(** New props and a new [isVisible] for the next render. *)
Definition with_inputs (p r v : bool) (c : Component) : Component :=
  {| prop_paused := p; prop_prefersReducedMotion := r;
     state_isVisible := v; state_error := state_error c;
     mountRef := mountRef c; container := container c;
     rendererRef := rendererRef c; sceneRef := sceneRef c;
     effect := effect c;
     scenes := scenes c; allocated := allocated c; disposed := disposed c;
     released := released c; nextId := nextId c; randoms := randoms c |}.

(** React detaches the ref of the host [div] ([false]) or keeps it. *)
Definition with_mountRef (b : bool) (c : Component) : Component :=
  {| prop_paused := prop_paused c;
     prop_prefersReducedMotion := prop_prefersReducedMotion c;
     state_isVisible := state_isVisible c; state_error := state_error c;
     mountRef := b; container := container c;
     rendererRef := rendererRef c; sceneRef := sceneRef c;
     effect := effect c;
     scenes := scenes c; allocated := allocated c; disposed := disposed c;
     released := released c; nextId := nextId c; randoms := randoms c |}.

(** [mountRef.current.removeChild(canvas); rendererRef.current.dispose()]. *)
Definition detach (canvas : nat) (c : Component) : Component :=
  {| prop_paused := prop_paused c;
     prop_prefersReducedMotion := prop_prefersReducedMotion c;
     state_isVisible := state_isVisible c; state_error := state_error c;
     mountRef := mountRef c;
     container := remove Nat.eq_dec canvas (container c);
     rendererRef := rendererRef c; sceneRef := sceneRef c;
     effect := effect c;
     scenes := scenes c; allocated := allocated c; disposed := disposed c;
     released := released c ++ [canvas];
     nextId := nextId c; randoms := randoms c |}.

(** The [dispose()] calls [rs] on geometries and materials. *)
Definition dispose (rs : list Resource) (c : Component) : Component :=
  {| prop_paused := prop_paused c;
     prop_prefersReducedMotion := prop_prefersReducedMotion c;
     state_isVisible := state_isVisible c; state_error := state_error c;
     mountRef := mountRef c; container := container c;
     rendererRef := rendererRef c; sceneRef := sceneRef c;
     effect := effect c;
     scenes := scenes c; allocated := allocated c;
     disposed := disposed c ++ rs;
     released := released c; nextId := nextId c; randoms := randoms c |}.

(** How [await import('three')] and the constructors end. *)
Inductive ImportResult : Type :=
| ImportRejected                        (* the promise rejects *)
| ImportResolved (contextOk : bool).    (* [new WebGLRenderer] succeeds or throws *)

(** What happens to a mounted component. *)
Inductive Event : Type :=
| Render (paused prefersReducedMotion : bool)  (* the parent passes props *)
| VisibilityChange (hidden : bool)             (* [visibilitychange], lines 33-40 *)
| ImportSettled (r : ImportResult)
| AnimationFrame (currentTime deltaTime : Q)   (* the scheduled frame fires *)
| Unmount.

Section Lifecycle.

Variable host : Host.

(** Turn [i] of the loop of lines 107-130; [id] is the first free
    object id and [r] the number of [Math.random()] calls before the
    loop.  The four draws are in source order: radius, height, speed,
    verticalSpeed. *)
Definition newOrbit (level : PerformanceLevel) (id r i : nat) : Orbit :=
  {| mesh := newMesh (Geometry (id + i)) (Material (id + i));
     userData :=
       {| radius := 2 + Math_random host (r + 4 * i) * 1.5;
          angle := inject_Z (Z.of_nat i)
                   / inject_Z (Z.of_nat (orbitCount level))
                   * Math_PI host * 2;
          height := (Math_random host (r + 4 * i + 1) - 0.5) * 0.5;
          speed := 0.2 + Math_random host (r + 4 * i + 2) * 0.3;
          verticalSpeed := 0.1 + Math_random host (r + 4 * i + 3) * 0.2 |} |}.

Definition newOrbits (level : PerformanceLevel) (id r : nat) : list Orbit :=
  map (newOrbit level id r) (seq 0 (orbitCount level)).

(** The geometry and the material of each mesh, in creation order. *)
Definition meshResources (m : Mesh) : list Resource :=
  [geometry m; material m].

Definition sceneResources (core : Mesh) (orbits : list Orbit) : list Resource :=
  meshResources core ++ flat_map (fun o => meshResources (mesh o)) orbits.

(** The closure of [animate] as lines 157-159 leave it: the flags of
    the render that ran the effect, [mounted] true, no frame rendered. *)
Definition newLoop (d : Deps) (level : PerformanceLevel) (coreMesh : Mesh)
    (spheres : list Orbit) : Loop :=
  {| mounted := true; isVisible := dep_isVisible d;
     paused := dep_paused d;
     prefersReducedMotion := dep_prefersReducedMotion d;
     performanceLevel := level; lastFrameTime := 0;
     core := coreMesh; orbits := spheres;
     rendered := []; requested := 0 |}.

(** Lines 60-197, when no constructor throws: build the scene, store
    the refs, attach the canvas, start the loop with [animate(0)]
    (which never reaches [getDelta()], so its [deltaTime] is moot). *)
Definition construct (c : Component) : Component :=
  let level := getPerformanceLevel (navigator host) in
  let canvas := nextId c in
  let coreMesh := newMesh (Geometry (S canvas)) (Material (S canvas)) in
  let spheres := newOrbits level (S (S canvas)) (randoms c) in
  let d := deps (effect c) in
  let l0 := newLoop d level coreMesh spheres in
  {| prop_paused := prop_paused c;
     prop_prefersReducedMotion := prop_prefersReducedMotion c;
     state_isVisible := state_isVisible c; state_error := state_error c;
     mountRef := mountRef c;
     container := container c ++ [canvas];
     rendererRef :=
       Some {| domElement := canvas; antialias := antialias_of level |};
     sceneRef := Some (sceneGraph coreMesh spheres);
     effect := {| deps := d; stage := Looping (animate host 0 0 l0) |};
     scenes := S (scenes c);
     allocated := allocated c ++ sceneResources coreMesh spheres;
     disposed := disposed c; released := released c;
     nextId := S (S canvas) + orbitCount level;
     randoms := (randoms c + 4 * orbitCount level)%nat |}.

(** The body of the effect, lines 44-211, up to the [await]: without
    WebGL the [throw] of line 52 is caught at once, with [mounted]
    still true. *)
Definition initEffect (c : Component) : Component :=
  let run s := {| deps := currentDeps c; stage := s |} in
  if negb (mountRef c) then with_effect (run Bailed) c
  else if negb (WebGLRenderingContext host)
       then setError (with_effect (run Finished) c)
       else with_effect (run (Importing true)) c.

(** The rest of [initThreeJS], once the import settles. *)
Definition importSettled (r : ImportResult) (c : Component) : Component :=
  match stage (effect c) with
  | Importing m =>
      match r with
      | ImportRejected =>
          if m then setError (with_stage Finished c)
          else with_stage Finished c
      | ImportResolved contextOk =>
          if negb m then with_stage Finished c
          else if contextOk then construct c
          else setError (newScene (with_stage Finished c))
      end
  | _ => c
  end.

(** [mounted = false] and [cancelAnimationFrame], lines 214-218. *)
Definition stop (s : Stage) : Stage :=
  match s with
  | Importing _ => Importing false
  | Looping l =>
      Cancelled
        {| mounted := false; isVisible := isVisible l; paused := paused l;
           prefersReducedMotion := prefersReducedMotion l;
           performanceLevel := performanceLevel l;
           lastFrameTime := lastFrameTime l;
           core := core l; orbits := orbits l;
           rendered := rendered l; requested := requested l |}
  | s => s
  end.

(** Lines 226-237. *)
Definition cleanupScene (c : Component) : Component :=
  match sceneRef c with
  | Some scene => dispose (disposeScene scene) c
  | None => c
  end.

(** The cleanup of the effect, lines 213-238.  [removeChild] raises
    when the canvas is not a child of the host [div]. *)
Definition cleanup (c : Component) : Outcome :=
  let c1 := with_stage (stop (stage (effect c))) c in
  match rendererRef c1 with
  | Some r =>
      if mountRef c1 then
        if existsb (Nat.eqb (domElement r)) (container c1)
        then Returned (cleanupScene (detach (domElement r) c1))
        else Raised c1
      else Returned (cleanupScene c1)
  | None => Returned (cleanupScene c1)
  end.

(** React after a render: when a dependency of line 239 changed, the
    cleanup of the previous run and then the effect again. *)
Definition commit (c : Component) : Outcome :=
  if Deps_eqb (deps (effect c)) (currentDeps c) then Returned c
  else
    match stage (effect c) with
    | Bailed => Returned (initEffect c)
    | _ =>
        match cleanup c with
        | Returned c' => Returned (initEffect c')
        | Raised c' => Raised c'
        end
    end.

(** React takes the component away: the ref of the host [div] is
    detached, then the cleanup runs. *)
Definition unmount (c : Component) : Outcome :=
  match stage (effect c) with
  | Bailed => Returned (with_mountRef false c)
  | _ => cleanup (with_mountRef false c)
  end.

(** The first render and commit: [isVisible] starts [true], every ref
    is empty, the host [div] has no child. *)
Definition mount (paused prefersReducedMotion : bool) : Component :=
  initEffect
    {| prop_paused := paused;
       prop_prefersReducedMotion := prefersReducedMotion;
       state_isVisible := true; state_error := false;
       mountRef := true; container := [];
       rendererRef := None; sceneRef := None;
       effect :=
         {| deps := {| dep_paused := paused;
                       dep_prefersReducedMotion := prefersReducedMotion;
                       dep_isVisible := true |};
            stage := Bailed |};
       scenes := 0; allocated := []; disposed := []; released := [];
       nextId := 0; randoms := 0 |}.

(** A render with [error] set throws (line 241) and React unmounts
    the component; an unmounted component ignores every event. *)
Definition rerender (p r v : bool) (c : Component) : Outcome :=
  if state_error c then unmount c else commit (with_inputs p r v c).

Definition frame (currentTime deltaTime : Q) (c : Component) : Component :=
  match stage (effect c) with
  | Looping l => with_stage (Looping (animate host currentTime deltaTime l)) c
  | _ => c
  end.

Definition step (c : Component) (e : Event) : Outcome :=
  if negb (mountRef c) then Returned c
  else
    match e with
    | Render p r => rerender p r (state_isVisible c) c
    | VisibilityChange hidden =>
        rerender (prop_paused c) (prop_prefersReducedMotion c) (negb hidden) c
    | ImportSettled r => Returned (importSettled r c)
    | AnimationFrame t dt => Returned (frame t dt c)
    | Unmount => unmount c
    end.

Fixpoint run (es : list Event) (c : Component) : Outcome :=
  match es with
  | [] => Returned c
  | e :: es' =>
      match step c e with
      | Returned c' => run es' c'
      | Raised c' => Raised c'
      end
  end.

Definition frames (fs : list (Q * Q)) (c : Component) : Component :=
  fold_left (fun c f => frame (fst f) (snd f) c) fs c.

End Lifecycle.

(** The orbiting spheres of the current run, if its loop has started. *)
Definition spheres (c : Component) : list Orbit :=
  match stage (effect c) with
  | Looping l | Cancelled l => orbits l
  | _ => []
  end.

(** The loop of the current run of the effect, if it has started and
    its frame is not cancelled. *)
Definition loopOf (c : Component) : option Loop :=
  match stage (effect c) with
  | Looping l => Some l
  | _ => None
  end.

(** The component after a first initialisation that succeeds. *)
Definition started (host : Host) (p r : bool) : Component :=
  importSettled host (ImportResolved true) (mount host p r).

(** ** A host for examples

    Polynomial stand-ins for the cosine and the sine, a constant random
    source, eight processors and eight gigabytes. *)
Definition demoHost : Host :=
  {| Math_cos := fun a => 1 - a * a / 2 + a * a * a * a / 24;
     Math_sin := fun a => a - a * a * a / 6;
     Math_PI := 355 # 113;
     Math_random := fun _ => 1 # 2;
     navigator := {| hardwareConcurrency := JsNum 8; deviceMemory := JsNum 8 |};
     WebGLRenderingContext := true |}.

(** The same host with four processors: the low tier. *)
Definition smallHost : Host :=
  {| Math_cos := Math_cos demoHost; Math_sin := Math_sin demoHost;
     Math_PI := Math_PI demoHost; Math_random := Math_random demoHost;
     navigator := {| hardwareConcurrency := JsNum 4; deviceMemory := JsNum 8 |};
     WebGLRenderingContext := true |}.

(** The demo component mounted with [paused], the import resolved. *)
Definition demoPaused : Component :=
  importSettled demoHost (ImportResolved true) (mount demoHost true false).

(** The low-tier component, running, after its first rendered frame. *)
Definition smallRunning : Component :=
  frame smallHost 100 0
    (importSettled smallHost (ImportResolved true) (mount smallHost false false)).

(** The loop of the demo component mounted with [paused]: the twelve
    spheres of the high tier, one frame requested by [animate(0)]. *)
Definition idleLoop : Loop :=
  animate demoHost 0 0
    (newLoop {| dep_paused := true; dep_prefersReducedMotion := false;
                dep_isVisible := true |}
             high (newMesh (Geometry 1) (Material 1))
             (newOrbits demoHost high 2 0)).

(** The loop of the low-tier component, running, before any frame. *)
Definition lowLoop : Loop :=
  animate smallHost 0 0
    (newLoop {| dep_paused := false; dep_prefersReducedMotion := false;
                dep_isVisible := true |}
             low (newMesh (Geometry 1) (Material 1))
             (newOrbits smallHost low 2 0)).

(** The same with reduced motion. *)
Definition stillLoop : Loop :=
  animate smallHost 0 0
    (newLoop {| dep_paused := false; dep_prefersReducedMotion := true;
                dep_isVisible := true |}
             low (newMesh (Geometry 1) (Material 1))
             (newOrbits smallHost low 2 0)).

(** The demo component: initialised, one frame rendered, then paused by
    its parent, then initialised again. *)
Definition demoRepaused : Outcome :=
  run demoHost
    [ImportSettled (ImportResolved true); AnimationFrame 100 0;
     Render true false; ImportSettled (ImportResolved true)]
    (mount demoHost false false).

(** ** Specification-side notions *)

(** Render times, newest first, each at least [i] after the one before. *)
Fixpoint spaced (i : Q) (ts : list Q) : Prop :=
  match ts with
  | t2 :: rest =>
      match rest with
      | t1 :: _ => i <= t2 - t1
      | [] => True
      end /\ spaced i rest
  | [] => True
  end.

(** The render log of a loop agrees with [lastFrameTime] and is spaced
    by the frame interval of the tier. *)
Definition paced (l : Loop) : Prop :=
  spaced (frameInterval (performanceLevel l)) (rendered l)
  /\ match rendered l with
     | t :: _ => lastFrameTime l = t
     | [] => True
     end.

(** The object at a position of the scene graph: a path of child
    indices from the root. *)
Fixpoint subtree (o : Object3D) (p : list nat) : option Object3D :=
  match p with
  | [] => Some o
  | i :: p' =>
      match nth_error (children o) i with
      | Some c => subtree c p'
      | None => None
      end
  end.

(** The states a mounted component can reach without a raised cleanup. *)
Definition reachable (host : Host) (c : Component) : Prop :=
  exists p r es, run host es (mount host p r) = Returned c.

(** The closure of the current run has the flags of the last render. *)
Definition inSync (c : Component) : Prop :=
  deps (effect c) = currentDeps c
  /\ forall l, stage (effect c) = Looping l ->
               paused l = dep_paused (deps (effect c)).

(** The number of the mesh a resource belongs to. *)
Definition resourceId (x : Resource) : nat :=
  match x with Geometry n | Material n => n end.

(** The geometry and the material of the meshes numbered [ns]. *)
Definition resourcesOf (ns : list nat) : list Resource :=
  flat_map (fun n => [Geometry n; Material n]) ns.

(** No resource was created twice, and [nextId] is beyond every id. *)
Definition accounted (c : Component) : Prop :=
  NoDup (allocated c)
  /\ Forall (fun x => (resourceId x < nextId c)%nat) (allocated c).

(** The loop runs: the canvas of [rendererRef] is the only child of the
    host [div], and the resources not yet disposed are those of the
    scene in [sceneRef]. *)
Definition healthy (c : Component) : Prop :=
  state_error c = false /\ accounted c
  /\ exists l r g,
       stage (effect c) = Looping l
       /\ rendererRef c = Some r /\ container c = [domElement r]
       /\ sceneRef c = Some g
       /\ allocated c = disposed c ++ disposeScene g.

(** The effect awaits the import: nothing is attached, every resource
    created so far is disposed. *)
Definition awaiting (c : Component) : Prop :=
  state_error c = false /\ accounted c
  /\ stage (effect c) = Importing true
  /\ container c = [] /\ disposed c = allocated c
  /\ (rendererRef c = None -> sceneRef c = None).

(** The initialisation failed and reported its error. *)
Definition failed (c : Component) : Prop :=
  state_error c = true /\ stage (effect c) = Finished /\ container c = [].

Definition sound (c : Component) : Prop :=
  mountRef c = true -> healthy c \/ awaiting c \/ failed c.

(** The positions below the children [cs], the first of which has index
    [i]; [pos] lists the positions of one child. *)
Definition childPositions (pos : Object3D -> list (list nat)) :
    nat -> list Object3D -> list (list nat) :=
  fix below (i : nat) (cs : list Object3D) : list (list nat) :=
    match cs with
    | [] => []
    | c :: cs' => map (cons i) (pos c) ++ below (S i) cs'
    end.

(** Every position of the graph, in the order of [traverse]. *)
Fixpoint positions (o : Object3D) : list (list nat) :=
  match o with
  | Object _ _ cs => [] :: childPositions positions 0 cs
  end.

(** Induction on scene graphs, with the hypothesis for every child. *)
Fixpoint Object3D_nested_ind (P : Object3D -> Prop)
    (step : forall g m cs, Forall P cs -> P (Object g m cs))
    (o : Object3D) : P o :=
  match o with
  | Object g m cs =>
      step g m cs
        ((fix all (cs : list Object3D) : Forall P cs :=
            match cs with
            | [] => Forall_nil P
            | c :: cs' =>
                Forall_cons c (Object3D_nested_ind P step c) (all cs')
            end) cs)
  end.

(** ** Invariants of a run of the loop *)

(** What every call of [animate] keeps, from [newLoop] on: the render
    log is paced and no frame was rendered before one frame interval;
    [lastFrameTime] is still 0 while nothing was rendered; the spheres
    of a loop that never moves are where [new THREE.Mesh] put them, and
    so is the core. *)
Definition loopInv (l : Loop) : Prop :=
  mounted l = true
  /\ paced l
  /\ Forall (fun t => frameInterval (performanceLevel l) <= t) (rendered l)
  /\ (rendered l = [] -> lastFrameTime l = 0)
  /\ (suspended l = true \/ prefersReducedMotion l = true ->
      Forall (fun o => position (mesh o) = Vec3.zero) (orbits l))
  /\ position (core l) = Vec3.zero.

(** [Math.random()] returns a number in the range 0 to 1, 1 excluded. *)
Definition randomInRange (host : Host) : Prop :=
  forall n, 0 <= Math_random host n /\ Math_random host n < 1.

(** The ranges that lines 116-125 give to what [animate] never
    assigns: the radius and the two speeds. *)
Definition inRange (u : UserData) : Prop :=
  (2 <= radius u /\ radius u < 3.5)
  /\ (0.2 <= speed u /\ speed u < 0.5)
  /\ (0.1 <= verticalSpeed u /\ verticalSpeed u < 0.3).

(** The loop of a run has the flags the run captured and the tier of
    the host. *)
Definition runInv (host : Host) (e : EffectRun) : Prop :=
  forall l, stage e = Looping l ->
    isVisible l = dep_isVisible (deps e)
    /\ paused l = dep_paused (deps e)
    /\ prefersReducedMotion l = dep_prefersReducedMotion (deps e)
    /\ performanceLevel l = getPerformanceLevel (navigator host)
    /\ length (orbits l) = orbitCount (getPerformanceLevel (navigator host))
    /\ (1 <= requested l)%nat
    /\ loopInv l
    /\ (randomInRange host ->
        Forall (fun o => inRange (userData o)) (orbits l)).

(** Consecutive moving frames with the elapsed times [dts]. *)
Definition moves (host : Host) (dts : list Q) (l : Loop) : Loop :=
  fold_left (fun l dt => move host dt l) dts l.

(** The elapsed times of the frames of [fs] that reach line 168: the
    loop is not suspended and the frame is due. *)
Fixpoint rendering (host : Host) (fs : list (Q * Q)) (l : Loop) : list Q :=
  match fs with
  | [] => []
  | f :: fs' =>
      (if negb (suspended l) && due (fst f) l then [snd f] else [])
      ++ rendering host fs' (animate host (fst f) (snd f) l)
  end.

(** The sum of elapsed times. *)
Definition total (dts : list Q) : Q := fold_right Qplus 0 dts.

(** ** The camera and the size of the renderer *)

(** The quotient of two numbers as JavaScript computes it: a number,
    or [Infinity], [-Infinity] or [NaN] when the divisor is 0. *)
Inductive JsQuotient : Type :=
| JsFinite (q : Q)
| JsInfinity (negative : bool)
| JsNaN.

(** [a / b]. *)
Definition js_div (a b : Q) : JsQuotient :=
  if Qeq_bool b 0 then
    if Qeq_bool a 0 then JsNaN else JsInfinity (Qle_bool a 0)
  else JsFinite (a / b).

(** [camera.aspect], the size given to [renderer.setSize] and the
    ratio given to [renderer.setPixelRatio]. *)
Module View.
Record t : Type := {
  aspect : JsQuotient;
  width : Q;
  height : Q;
  pixelRatio : Q
}.
End View.

(** The component in its page: the size of the host [div], the pixel
    density of the window, and the camera and renderer of each
    [handleResize] that line 154 registered on the window, newest
    first.  The [mounted] that a [handleResize] reads is the one of its
    run: the loop's while that run is current, [false] afterwards. *)
Record Page : Type := {
  component : Component;
  clientWidth : Q;
  clientHeight : Q;
  devicePixelRatio : Q;
  views : list View.t
}.

Inductive PageEvent : Type :=
| OnCanvas (e : Event)
| WindowResize (w h : Q)    (* [resize] fires, the host [div] measures w by h *)
| DevicePixelRatioChange (dpr : Q).  (* another screen, or the user zooms *)

(** [Math.min(a, b)]. *)
Definition Math_min (a b : Q) : Q := if Qle_bool a b then a else b.

(** Lines 67-82: the camera and the renderer of a new run.  This is
    the one place that reads [window.devicePixelRatio]. *)
Definition newView (p : Page) : View.t :=
  {| View.aspect := js_div (clientWidth p) (clientHeight p);
     View.width := clientWidth p;
     View.height := clientHeight p;
     View.pixelRatio := Math_min (devicePixelRatio p) 2 |}.

(** [handleResize], lines 143-152, on the camera and renderer it
    closes over. *)
Definition handleResize (mountRef mounted : bool) (w h : Q) (v : View.t) :
    View.t :=
  if negb mountRef || negb mounted then v
  else {| View.aspect := js_div w h; View.width := w; View.height := h;
          View.pixelRatio := View.pixelRatio v |}.

(** The [mounted] of the run whose [handleResize] was registered last. *)
Definition liveMounted (c : Component) : bool :=
  match stage (effect c) with
  | Looping l => mounted l
  | _ => false
  end.

(** The event makes [initThreeJS] reach line 154. *)
Definition constructs (c : Component) (e : Event) : bool :=
  mountRef c
  && match e, stage (effect c) with
     | ImportSettled (ImportResolved true), Importing true => true
     | _, _ => false
     end.

(** A [resize] event: every registered [handleResize] runs; those of
    earlier runs return at line 144. *)
Definition resize (w h : Q) (p : Page) : Page :=
  {| component := component p;
     clientWidth := w; clientHeight := h;
     devicePixelRatio := devicePixelRatio p;
     views :=
       match views p with
       | v :: vs =>
           handleResize (mountRef (component p)) (liveMounted (component p))
                        w h v :: vs
       | [] => []
       end |}.

Definition pageStep (host : Host) (p : Page) (e : PageEvent) : option Page :=
  match e with
  | OnCanvas ev =>
      match step host (component p) ev with
      | Returned c' =>
          Some {| component := c';
                  clientWidth := clientWidth p;
                  clientHeight := clientHeight p;
                  devicePixelRatio := devicePixelRatio p;
                  views := if constructs (component p) ev
                           then newView p :: views p else views p |}
      | Raised _ => None
      end
  | WindowResize w h => Some (resize w h p)
  | DevicePixelRatioChange dpr =>
      Some {| component := component p;
              clientWidth := clientWidth p;
              clientHeight := clientHeight p;
              devicePixelRatio := dpr;
              views := views p |}
  end.

Fixpoint pageRun (host : Host) (es : list PageEvent) (p : Page) : option Page :=
  match es with
  | [] => Some p
  | e :: es' =>
      match pageStep host p e with
      | Some p' => pageRun host es' p'
      | None => None
      end
  end.

(** The events of the component among the events of the page. *)
Definition canvasEvents (es : list PageEvent) : list Event :=
  flat_map (fun e => match e with OnCanvas ev => [ev] | _ => [] end) es.

(** The page when the component mounts in a host [div] of [w] by [h]. *)
Definition pageMount (host : Host) (paused prefersReducedMotion : bool)
    (w h dpr : Q) : Page :=
  {| component := mount host paused prefersReducedMotion;
     clientWidth := w; clientHeight := h; devicePixelRatio := dpr;
     views := [] |}.

(** The pages a mounted component can reach without a raised cleanup,
    whatever the host [div] measures. *)
Definition pageReachable (host : Host) (p : Page) : Prop :=
  exists paused prm w h dpr es,
    pageRun host es (pageMount host paused prm w h dpr) = Some p.

(** Every camera has the aspect that its renderer's size gives, no
    pixel ratio exceeds 2, and while the loop runs the newest renderer
    has the size of the host [div]. *)
Definition viewsInv (p : Page) : Prop :=
  Forall (fun v => View.aspect v = js_div (View.width v) (View.height v)
                   /\ View.pixelRatio v <= 2) (views p)
  /\ (liveMounted (component p) = true -> mountRef (component p) = true ->
      exists v vs, views p = v :: vs
                   /\ View.width v = clientWidth p
                   /\ View.height v = clientHeight p).

(** ** The hero section around the canvas *)

(** [navigator.connection]: not a property of [navigator], or there
    with its [saveData] ([None]: undefined). *)
Inductive Connection : Type :=
| NoConnection
| ConnectionInfo (saveData : option bool).

Record Device : Type := {
  deviceNavigator : Navigator;
  connection : Connection;
  innerWidth : Q
}.

(** [v >= d] for a number-or-undefined [v]: [undefined >= d] is false. *)
Definition js_ge (v : JsNumber) (d : Q) : bool :=
  match v with
  | JsUndefined => false
  | JsNum q => Qle_bool d q
  end.

(** [checkCapabilities], lines 313-323: the new [shouldLoadCanvas]. *)
Definition checkCapabilities (d : Device) (shouldLoadCanvas : bool) : bool :=
  let hasGoodHardware := js_ge (hardwareConcurrency (deviceNavigator d)) 4 in
  let hasGoodConnection :=
    match connection d with
    | NoConnection => true
    | ConnectionInfo saveData =>
        negb match saveData with Some b => b | None => false end
    end in
  let hasGoodViewport := Qle_bool 900 (innerWidth d) in
  if hasGoodHardware && hasGoodConnection && hasGoodViewport
  then true else shouldLoadCanvas.

(** A wallet connector, with the [type] that [handleGetStarted] reads. *)
Record Connector : Type := {
  connectorId : nat;
  connectorType : String.string
}.

(** What [handleGetStarted] does, in order. *)
Inductive Action : Type :=
| ToastSuccess (message : String.string)
| ToastError (message : String.string)
| SetWalletConnected (b : bool)
| Connect (c : Connector)
| ConsoleError.

Definition isType (t : String.string) (c : Connector) : bool :=
  String.eqb (connectorType c) t.

(** [connect({ connector })] inside the [try]: when it throws, the
    [catch] of lines 380-383 runs. *)
Definition tryConnect (throws : Connector -> bool) (c : Connector) :
    list Action :=
  if throws c
  then [Connect c; ConsoleError;
        ToastError "Failed to connect wallet. Please try again."%string]
  else [Connect c].

(** [handleGetStarted], lines 352-384. *)
Definition handleGetStarted (isConnected walletConnected : bool)
    (connectors : list Connector) (throws : Connector -> bool) : list Action :=
  if isConnected || walletConnected then
    [ToastSuccess "Welcome to OrbitFlash! 🚀"%string; SetWalletConnected true]
  else
    match find (isType "injected"%string) connectors with
    | Some injectedConnector => tryConnect throws injectedConnector
    | None =>
        match find (isType "walletConnect"%string) connectors with
        | Some walletConnectConnector =>
            tryConnect throws walletConnectConnector
        | None =>
            [ToastError
               "No wallet found. Please install a Web3 wallet or use WalletConnect."%string]
        end
    end.

(** The connectors that a list of actions passes to [connect]. *)
Definition connected (acts : list Action) : list Connector :=
  flat_map (fun a => match a with Connect c => [c] | _ => [] end) acts.

(** ** Further inputs for examples *)

(** The demo component, running, after its first rendered frame. *)
Definition demoMoving : Component :=
  frame demoHost 100 0 (started demoHost false false).

(** The demo component whose import was rejected. *)
Definition demoFailed : Component :=
  importSettled demoHost ImportRejected (mount demoHost false false).

(** The demo component in a host [div] of 800 by 600, initialised, then
    resized to 400 by 300. *)
Definition demoPageEvents : list PageEvent :=
  [OnCanvas (ImportSettled (ImportResolved true)); WindowResize 400 300].

Definition demoPage : Page :=
  resize 400 300
    {| component := started demoHost false false;
       clientWidth := 800; clientHeight := 600; devicePixelRatio := 3;
       views := [{| View.aspect := js_div 800 600; View.width := 800;
                    View.height := 600; View.pixelRatio := 2 |}] |}.

(** The demo component in a host [div] that measures 800 by 0, on a
    window of density 1 that moves to a screen of density 3 once the
    scene is built. *)
Definition flatPage : option Page :=
  pageRun demoHost
    [OnCanvas (ImportSettled (ImportResolved true));
     DevicePixelRatioChange 3]
    (pageMount demoHost false false 800 0 1).

(** A laptop: eight processors, no [navigator.connection], 1280 wide. *)
Definition demoDevice : Device :=
  {| deviceNavigator := navigator demoHost;
     connection := NoConnection;
     innerWidth := 1280 |}.

(** A WalletConnect connector listed before an injected one. *)
Definition demoConnectors : list Connector :=
  [{| connectorId := 0; connectorType := "walletConnect"%string |};
   {| connectorId := 1; connectorType := "injected"%string |}].

(** * Properties *)

(** ** The animation callback, case by case *)

Section AnimateFacts.

Variable host : Host.

Lemma animate_suspended (t dt : Q) (l : Loop) :
  suspended l = true -> animate host t dt l = requestAnimationFrame l.
Proof.
  unfold suspended, animate. intros ->. reflexivity.
Qed.

Lemma animate_early (t dt : Q) (l : Loop) :
  suspended l = false -> due t l = false ->
  animate host t dt l = requestAnimationFrame l.
Proof.
  unfold suspended, due, animate. intros -> ->. reflexivity.
Qed.

Lemma animate_due (t dt : Q) (l : Loop) :
  suspended l = false -> due t l = true ->
  animate host t dt l =
  requestAnimationFrame
    (render t (if negb (prefersReducedMotion l) then move host dt l else l)).
Proof.
  unfold suspended, due, animate. intros -> ->. reflexivity.
Qed.

(** The three cases cover every call. *)
Lemma animate_cases (t dt : Q) (l : Loop) :
  animate host t dt l = requestAnimationFrame l
  \/ (suspended l = false /\ due t l = true
      /\ animate host t dt l =
         requestAnimationFrame
           (render t (if negb (prefersReducedMotion l)
                      then move host dt l else l))).
Proof.
  destruct (suspended l) eqn:Hs.
  - left. now apply animate_suspended.
  - destruct (due t l) eqn:Hd.
    + right. repeat split. now apply animate_due.
    + left. now apply animate_early.
Qed.

(** What a call never changes: the captured flags and the tier. *)
Lemma animate_closure (t dt : Q) (l : Loop) :
  mounted (animate host t dt l) = mounted l
  /\ isVisible (animate host t dt l) = isVisible l
  /\ paused (animate host t dt l) = paused l
  /\ prefersReducedMotion (animate host t dt l) = prefersReducedMotion l
  /\ performanceLevel (animate host t dt l) = performanceLevel l
  /\ length (orbits (animate host t dt l)) = length (orbits l).
Proof.
  destruct (animate_cases t dt l) as [-> | (_ & _ & ->)]; cbn.
  - repeat split.
  - destruct (negb (prefersReducedMotion l)); unfold move;
      cbn [mounted isVisible paused prefersReducedMotion performanceLevel
           orbits render requestAnimationFrame];
      repeat split. apply length_map.
Qed.

Lemma animate_suspended_inv (t dt : Q) (l : Loop) :
  suspended (animate host t dt l) = suspended l.
Proof.
  unfold suspended.
  destruct (animate_closure t dt l) as (-> & -> & -> & _). reflexivity.
Qed.

Lemma ticks_cons (f : Q * Q) (fs : list (Q * Q)) (l : Loop) :
  ticks host (f :: fs) l = ticks host fs (animate host (fst f) (snd f) l).
Proof. reflexivity. Qed.

Lemma ticks_closure (fs : list (Q * Q)) (l : Loop) :
  suspended (ticks host fs l) = suspended l
  /\ paused (ticks host fs l) = paused l
  /\ prefersReducedMotion (ticks host fs l) = prefersReducedMotion l
  /\ performanceLevel (ticks host fs l) = performanceLevel l
  /\ length (orbits (ticks host fs l)) = length (orbits l).
Proof.
  revert l. induction fs as [|f fs IH]; intros l.
  - repeat split.
  - rewrite ticks_cons.
    destruct (IH (animate host (fst f) (snd f) l)) as (-> & -> & -> & -> & ->).
    rewrite animate_suspended_inv.
    destruct (animate_closure (fst f) (snd f) l) as (_ & _ & -> & -> & -> & ->).
    repeat split.
Qed.

End AnimateFacts.

Section LoopProperties.

Variable host : Host.

Lemma suspended_ticks_idle (fs : list (Q * Q)) (l : Loop) :
  suspended l = true ->
  orbits (ticks host fs l) = orbits l
  /\ core (ticks host fs l) = core l
  /\ rendered (ticks host fs l) = rendered l
  /\ lastFrameTime (ticks host fs l) = lastFrameTime l
  /\ requested (ticks host fs l) = (requested l + length fs)%nat.
Proof.
  revert l. induction fs as [|f fs IH]; intros l Hs.
  - cbn. repeat split. lia.
  - rewrite ticks_cons.
    assert (Hs' : suspended (animate host (fst f) (snd f) l) = true)
      by now rewrite animate_suspended_inv.
    destruct (IH _ Hs') as (-> & -> & -> & -> & ->).
    rewrite (animate_suspended host _ _ _ Hs). cbn. repeat split. lia.
Qed.

(** C1 (as amended): a tick that arrives while the component is
    unmounted, the page hidden or the canvas paused skips the
    animation math and issues no render call; it only schedules the
    next tick. *)
Theorem suspended_tick_only_reschedules (t dt : Q) (l : Loop) :
  mounted l = false \/ isVisible l = false \/ paused l = true ->
  animate host t dt l = requestAnimationFrame l
  /\ rendered (animate host t dt l) = rendered l
  /\ orbits (animate host t dt l) = orbits l
  /\ core (animate host t dt l) = core l
  /\ lastFrameTime (animate host t dt l) = lastFrameTime l
  /\ requested (animate host t dt l) = S (requested l).
Proof.
  intros H.
  assert (Hs : suspended l = true).
  { unfold suspended.
    destruct H as [-> | [-> | ->]]; cbn; rewrite ?orb_true_r; reflexivity. }
  rewrite (animate_suspended host t dt l Hs). repeat split.
Qed.

Lemma after_render (t dt : Q) (l : Loop) :
  let l1 := requestAnimationFrame
              (render t (if negb (prefersReducedMotion l)
                         then move host dt l else l)) in
  suspended l1 = suspended l
  /\ lastFrameTime l1 = t
  /\ performanceLevel l1 = performanceLevel l
  /\ rendered l1 = t :: rendered l.
Proof. destruct (negb (prefersReducedMotion l)); repeat split. Qed.

Lemma paced_animate (t dt : Q) (l : Loop) :
  paced l -> paced (animate host t dt l).
Proof.
  intros [Hsp Hlast].
  destruct (animate_cases host t dt l) as [-> | (_ & Hd & ->)].
  - split; assumption.
  - unfold paced.
    assert (E : forall l2, rendered l2 = rendered l ->
                performanceLevel l2 = performanceLevel l ->
                spaced (frameInterval
                          (performanceLevel (requestAnimationFrame (render t l2))))
                       (rendered (requestAnimationFrame (render t l2)))
                /\ match rendered (requestAnimationFrame (render t l2)) with
                   | t0 :: _ =>
                       lastFrameTime (requestAnimationFrame (render t l2)) = t0
                   | [] => True
                   end).
    { intros l2 Hr Hp. cbn. rewrite Hr, Hp. repeat split; try assumption.
      destruct (rendered l) as [|t1 rest]; [exact I|].
      unfold due in Hd. apply Qle_bool_iff in Hd. now rewrite Hlast in Hd. }
    destruct (negb (prefersReducedMotion l)); apply E; reflexivity.
Qed.

Lemma paced_ticks (fs : list (Q * Q)) (l : Loop) :
  paced l -> paced (ticks host fs l).
Proof.
  revert l. induction fs as [|f fs IH]; intros l H; [exact H|].
  rewrite ticks_cons. apply IH, paced_animate, H.
Qed.

Lemma frameInterval_low_gt_5 : 5 < frameInterval low.
Proof. reflexivity. Qed.

(** C4 (as amended): a tick whose elapsed time since the last rendered
    frame is below the frame interval of the tier renders nothing and
    still schedules the next tick; over any sequence of ticks the
    rendered frames are at least one frame interval apart (for a loop
    that has rendered nothing yet, as [construct] leaves it, or whose
    log is already so spaced); two ticks
    5 ms apart at the interval 1000/30 ms produce at most one render,
    and exactly one when the loop is running and the second tick is at
    least one interval after the last rendered frame. *)
Theorem frame_pacing (l : Loop) :
  (frameInterval low = 1000 / 30 /\ frameInterval high = 1000 / 60)
  /\ (forall t dt,
        t - lastFrameTime l < frameInterval (performanceLevel l) ->
        rendered (animate host t dt l) = rendered l
        /\ requested (animate host t dt l) = S (requested l))
  /\ (forall fs,
        rendered l = [] \/ paced l ->
        spaced (frameInterval (performanceLevel l))
               (rendered (ticks host fs l)))
  /\ (forall t dt1 dt2,
        performanceLevel l = low ->
        let l' := ticks host [(t, dt1); (t + 5, dt2)] l in
        (length (rendered l') <= S (length (rendered l)))%nat
        /\ (suspended l = false ->
            frameInterval low <= t + 5 - lastFrameTime l ->
            length (rendered l') = S (length (rendered l)))).
Proof.
  split; [split; reflexivity|]. split; [|split].
  - intros t dt Hlt.
    assert (Hd : due t l = false).
    { unfold due. destruct (Qle_bool _ _) eqn:E; [|reflexivity].
      apply Qle_bool_iff in E. lra. }
    destruct (suspended l) eqn:Hs.
    + rewrite (animate_suspended host t dt l Hs). split; reflexivity.
    + rewrite (animate_early host t dt l Hs Hd). split; reflexivity.
  - intros fs H.
    assert (Hp : paced l).
    { destruct H as [H | H]; [|exact H].
      unfold paced. rewrite H. cbn. split; exact I. }
    destruct (ticks_closure host fs l) as (_ & _ & _ & <- & _).
    apply (paced_ticks fs l Hp).
  - intros t dt1 dt2 Hlow l'. subst l'.
    rewrite ticks_cons, ticks_cons. cbn [fst snd ticks fold_left].
    pose proof frameInterval_low_gt_5 as H5.
    destruct (suspended l) eqn:Hs.
    { rewrite (animate_suspended host t dt1 l Hs).
      rewrite animate_suspended by exact Hs. cbn.
      split; [lia | discriminate]. }
    destruct (due t l) eqn:Hd.
    + (* the first tick renders, the second is too early *)
      rewrite (animate_due host t dt1 l Hs Hd).
      set (l1 := requestAnimationFrame (render t _)).
      destruct (after_render t dt1 l) as (Hsus & Hlast & Hlev & Hren).
      fold l1 in Hsus, Hlast, Hlev, Hren.
      assert (Hl1 : suspended l1 = false /\ due (t + 5) l1 = false
                    /\ length (rendered l1) = S (length (rendered l))).
      { split; [congruence|]. split; [|now rewrite Hren].
        unfold due. rewrite Hlast, Hlev, Hlow.
        destruct (Qle_bool _ _) eqn:E; [|reflexivity].
        apply Qle_bool_iff in E. lra. }
      destruct Hl1 as (Hs1 & Hd1 & Hlen). clearbody l1.
      rewrite (animate_early host _ _ l1 Hs1 Hd1). cbn.
      rewrite Hlen. split; [lia | reflexivity].
    + (* the first tick is too early *)
      rewrite (animate_early host t dt1 l Hs Hd).
      set (l1 := requestAnimationFrame l).
      assert (Hs1 : suspended l1 = false) by exact Hs.
      destruct (due (t + 5) l1) eqn:Hd1.
      * rewrite (animate_due host _ _ l1 Hs1 Hd1).
        destruct (negb (prefersReducedMotion l1)); cbn;
          (split; [lia | reflexivity]).
      * rewrite (animate_early host _ _ l1 Hs1 Hd1). cbn.
        split; [lia|]. intros _ Hle. exfalso.
        unfold due in Hd1. subst l1. cbn in Hd1. rewrite Hlow in Hd1.
        apply Qle_bool_iff in Hle. congruence.
Qed.

End LoopProperties.

Section MotionProperties.

Variable host : Host.

Lemma reduced_motion_animate (t dt : Q) (l : Loop) :
  prefersReducedMotion l = true ->
  orbits (animate host t dt l) = orbits l
  /\ core (animate host t dt l) = core l.
Proof.
  intros Hr.
  destruct (animate_cases host t dt l) as [-> | (_ & _ & ->)].
  - split; reflexivity.
  - rewrite Hr. split; reflexivity.
Qed.

Lemma reduced_motion_ticks (fs : list (Q * Q)) (l : Loop) :
  prefersReducedMotion l = true ->
  orbits (ticks host fs l) = orbits l /\ core (ticks host fs l) = core l.
Proof.
  revert l. induction fs as [|f fs IH]; intros l Hr; [split; reflexivity|].
  rewrite ticks_cons.
  destruct (animate_closure host (fst f) (snd f) l) as (_ & _ & _ & Hr' & _).
  rewrite Hr in Hr'.
  destruct (IH _ Hr') as [-> ->].
  now apply reduced_motion_animate.
Qed.

(** C5: with [prefersReducedMotion] true for the whole run, after any
    number of frame ticks every orbiting sphere (its position
    included) and the core (its rotation included) are what they were
    at the start, and a tick that is due in a running loop still
    issues its render call. *)
Theorem reduced_motion_no_drift (fs : list (Q * Q)) (l : Loop) :
  prefersReducedMotion l = true ->
  let l' := ticks host fs l in
  map (fun o => position (mesh o)) (orbits l')
  = map (fun o => position (mesh o)) (orbits l)
  /\ orbits l' = orbits l
  /\ rotation (core l') = rotation (core l)
  /\ (forall t dt,
        suspended l = false -> due t l' = true ->
        rendered (animate host t dt l') = t :: rendered l'
        /\ orbits (animate host t dt l') = orbits l).
Proof.
  intros Hr l'.
  destruct (reduced_motion_ticks fs l Hr) as [Ho Hc]. fold l' in Ho, Hc.
  rewrite Ho, Hc. repeat split.
  - destruct (ticks_closure host fs l) as (Hs & _ & Hr' & _).
    fold l' in Hs, Hr'.
    rewrite animate_due by congruence.
    rewrite Hr', Hr. reflexivity.
  - destruct (ticks_closure host fs l) as (_ & _ & Hr' & _).
    fold l' in Hr'. rewrite Hr in Hr'.
    destruct (reduced_motion_animate t dt l' Hr') as [-> _]. exact Ho.
Qed.

(** A paused loop never moves its objects. *)
Lemma paused_ticks_idle (fs : list (Q * Q)) (l : Loop) :
  paused l = true ->
  orbits (ticks host fs l) = orbits l /\ core (ticks host fs l) = core l.
Proof.
  intros Hp.
  assert (Hs : suspended l = true).
  { unfold suspended. rewrite Hp. apply orb_true_r. }
  destruct (suspended_ticks_idle host fs l Hs) as (-> & -> & _).
  split; reflexivity.
Qed.

(** C7: on a frame that moves (loop running, frame due, motion not
    reduced) with elapsed time [dt], every orbiting sphere has its
    angle advanced by [speed * dt], its vertical phase by
    [verticalSpeed * dt * 0.5], its position set to
    [(cos angle * radius, sin height * 0.3, sin angle * radius)] at
    the new angle and phase, and its own rotation about y advanced by
    [dt * 0.5]; radius and speeds stay; the core turns by [dt * 0.2]
    about y and [dt * 0.1] about x. *)
Theorem moving_frame_update (t dt : Q) (l : Loop) :
  suspended l = false -> due t l = true ->
  prefersReducedMotion l = false ->
  let l' := animate host t dt l in
  length (orbits l') = length (orbits l)
  /\ (forall i o,
        nth_error (orbits l) i = Some o ->
        exists o',
          nth_error (orbits l') i = Some o'
          /\ angle (userData o')
             = angle (userData o) + speed (userData o) * dt
          /\ height (userData o')
             = height (userData o) + verticalSpeed (userData o) * dt * 0.5
          /\ position (mesh o')
             = {| Vec3.x := Math_cos host (angle (userData o'))
                            * radius (userData o');
                  Vec3.y := Math_sin host (height (userData o')) * 0.3;
                  Vec3.z := Math_sin host (angle (userData o'))
                            * radius (userData o') |}
          /\ Vec3.y (rotation (mesh o'))
             = Vec3.y (rotation (mesh o)) + dt * 0.5
          /\ radius (userData o') = radius (userData o)
          /\ speed (userData o') = speed (userData o)
          /\ verticalSpeed (userData o') = verticalSpeed (userData o))
  /\ Vec3.y (rotation (core l')) = Vec3.y (rotation (core l)) + dt * 0.2
  /\ Vec3.x (rotation (core l')) = Vec3.x (rotation (core l)) + dt * 0.1
  /\ rendered l' = t :: rendered l.
Proof.
  intros Hs Hd Hr l'. subst l'.
  rewrite (animate_due host t dt l Hs Hd), Hr. cbn.
  split; [apply length_map|]. split; [|repeat split].
  intros i o Hi. exists (moveSphere host dt o).
  split; [now apply map_nth_error|]. repeat split.
Qed.

End MotionProperties.

(** ** The quality tier *)

Lemma getPerformanceLevel_reported (hc mem : Q) :
  getPerformanceLevel
    {| hardwareConcurrency := JsNum hc; deviceMemory := JsNum mem |}
  = if Qle_bool hc 4 || Qle_bool mem 4 then low else high.
Proof.
  unfold getPerformanceLevel, or_default. cbn.
  assert (D : forall q, Qle_bool (if Qeq_bool q 0 then 4 else q) 4
                        = Qle_bool q 4).
  { intros q. destruct (Qeq_bool q 0) eqn:E; [|reflexivity].
    apply Qeq_bool_iff in E. symmetry. apply Qle_bool_iff.
    rewrite E. discriminate. }
  now rewrite !D.
Qed.

Lemma low_or_high (hc mem : Q) :
  (hc <= 4 \/ mem <= 4 -> Qle_bool hc 4 || Qle_bool mem 4 = true)
  /\ (~ (hc <= 4 \/ mem <= 4) -> Qle_bool hc 4 || Qle_bool mem 4 = false).
Proof.
  split.
  - intros [H | H]; apply Qle_bool_iff in H; rewrite H; auto using orb_true_r.
  - intros H. apply orb_false_iff. split;
      (destruct (Qle_bool _ _) eqn:E; [|reflexivity]);
      apply Qle_bool_iff in E; tauto.
Qed.

(** ** The component: what each operation leaves alone *)

Lemma Deps_eqb_eq (a b : Deps) : Deps_eqb a b = true -> a = b.
Proof.
  destruct a as [a1 a2 a3], b as [b1 b2 b3]. unfold Deps_eqb. cbn.
  intros H. apply andb_prop in H as [H H3]. apply andb_prop in H as [H1 H2].
  apply eqb_prop in H1, H2, H3. congruence.
Qed.


Lemma stop_not_looping (s : Stage) (l : Loop) : stop s <> Looping l.
Proof. destruct s; discriminate. Qed.

Section ComponentFacts.

Variable host : Host.

Lemma cleanup_frame (c c' : Component) :
  cleanup c = Returned c' ->
  currentDeps c' = currentDeps c
  /\ deps (effect c') = deps (effect c)
  /\ stage (effect c') = stop (stage (effect c))
  /\ state_error c' = state_error c
  /\ mountRef c' = mountRef c
  /\ scenes c' = scenes c
  /\ allocated c' = allocated c
  /\ nextId c' = nextId c.
Proof.
  unfold cleanup, cleanupScene.
  cbn [with_stage with_effect rendererRef mountRef container sceneRef].
  destruct (rendererRef c) as [r|]; [destruct (mountRef c) eqn:Hm|].
  - destruct (existsb _ _); [|discriminate].
    intros [= <-]. cbn. destruct (sceneRef c); cbn; rewrite ?Hm; repeat split.
  - intros [= <-]. destruct (sceneRef c); cbn; rewrite ?Hm; repeat split.
  - intros [= <-]. destruct (sceneRef c); cbn; repeat split.
Qed.

Lemma initEffect_inSync (c : Component) : inSync (initEffect host c).
Proof.
  unfold initEffect.
  destruct (negb (mountRef c)); [|destruct (negb (WebGLRenderingContext host))];
    split; cbn; try reflexivity; discriminate.
Qed.

Lemma cleanup_inSync (c c' : Component) :
  inSync c -> cleanup c = Returned c' -> inSync c'.
Proof.
  intros [Hd _] H.
  destruct (cleanup_frame c c' H) as (Hc & Hd' & Hs & _).
  split; [congruence|].
  intros l Hl. rewrite Hs in Hl. now apply stop_not_looping in Hl.
Qed.

Lemma unmount_inSync (c c' : Component) :
  inSync c -> unmount c = Returned c' -> inSync c'.
Proof.
  unfold unmount. intros Hi H.
  destruct (stage (effect c)) eqn:Hs.
  1: { injection H as <-. destruct Hi as [Hd Hl]. split; [exact Hd|].
       cbn. intros l E. rewrite Hs in E. discriminate. }
  all: apply (cleanup_inSync (with_mountRef false c) c');
    [destruct Hi as [Hd Hl]; split; [exact Hd | exact Hl] | exact H].
Qed.

Lemma rerender_inSync (p r v : bool) (c c' : Component) :
  inSync c -> rerender host p r v c = Returned c' -> inSync c'.
Proof.
  unfold rerender. intros Hi H.
  destruct (state_error c); [now apply (unmount_inSync c c')|].
  unfold commit in H.
  destruct (Deps_eqb _ _) eqn:E.
  - injection H as <-. apply Deps_eqb_eq in E. cbn in E.
    destruct Hi as [_ Hl]. split; [exact E | exact Hl].
  - cbn [with_inputs effect stage] in H.
    destruct (stage (effect c));
      try (destruct (cleanup _); [|discriminate]);
      injection H as <-; apply initEffect_inSync.
Qed.

Lemma importSettled_inSync (res : ImportResult) (c : Component) :
  inSync c -> inSync (importSettled host res c).
Proof.
  intros Hi. unfold importSettled.
  destruct (stage (effect c)) as [|m|l|l|] eqn:Hs; try exact Hi.
  destruct Hi as [Hd Hl]. destruct res as [|ok].
  - destruct m; (split; [exact Hd | cbn; discriminate]).
  - destruct m; cbn [negb]; [destruct ok|];
      try (split; [exact Hd | cbn; discriminate]).
    split; [exact Hd|]. unfold construct. cbn [effect stage deps].
    intros l [= <-].
    match goal with
    | |- paused (animate host 0 0 ?l0) = _ =>
        now destruct (animate_closure host 0 0 l0) as (_ & _ & -> & _)
    end.
Qed.

Lemma frame_inSync (t dt : Q) (c : Component) :
  inSync c -> inSync (frame host t dt c).
Proof.
  intros Hi. unfold frame.
  destruct (stage (effect c)) as [|m|l|l|] eqn:Hs; try exact Hi.
  destruct Hi as [Hd Hl]. split; [exact Hd|]. cbn. intros l' [= <-].
  destruct (animate_closure host t dt l) as (_ & _ & -> & _).
  now apply Hl.
Qed.

Lemma step_inSync (e : Event) (c c' : Component) :
  inSync c -> step host c e = Returned c' -> inSync c'.
Proof.
  unfold step. intros Hi H.
  destruct (negb (mountRef c)); [now injection H as <-|].
  destruct e as [p r|hidden|res|t dt|].
  - now apply (rerender_inSync _ _ _ c c') in H.
  - now apply (rerender_inSync _ _ _ c c') in H.
  - injection H as <-. now apply importSettled_inSync.
  - injection H as <-. now apply frame_inSync.
  - now apply (unmount_inSync c c').
Qed.

Lemma run_inSync (es : list Event) (c c' : Component) :
  inSync c -> run host es c = Returned c' -> inSync c'.
Proof.
  revert c. induction es as [|e es IH]; intros c Hi H; cbn in H.
  - now injection H as <-.
  - destruct (step host c e) as [c1|c1] eqn:E; [|discriminate].
    apply (IH c1); [|exact H]. now apply (step_inSync e c c1).
Qed.

Lemma reachable_inSync (c : Component) : reachable host c -> inSync c.
Proof.
  intros (p & r & es & H).
  apply (run_inSync es (mount host p r) c); [|exact H].
  apply initEffect_inSync.
Qed.

Lemma frames_cons (f : Q * Q) (fs : list (Q * Q)) (c : Component) :
  frames host (f :: fs) c = frames host fs (frame host (fst f) (snd f) c).
Proof. reflexivity. Qed.

Lemma frame_looping (t dt : Q) (c : Component) (l : Loop) :
  stage (effect c) = Looping l ->
  frame host t dt c = with_stage (Looping (animate host t dt l)) c.
Proof. unfold frame. now intros ->. Qed.

Lemma frame_idle (t dt : Q) (c : Component) :
  loopOf c = None -> frame host t dt c = c.
Proof.
  unfold loopOf, frame. destruct (stage (effect c)); try reflexivity.
  discriminate.
Qed.

(** Frame ticks only touch the loop of the current run. *)
Lemma frames_looping (fs : list (Q * Q)) (c : Component) (l : Loop) :
  stage (effect c) = Looping l ->
  frames host fs c = with_stage (Looping (ticks host fs l)) c.
Proof.
  revert c l. induction fs as [|f fs IH]; intros c l Hs.
  - cbn. destruct c as [? ? ? ? ? ? ? ? [d s] ? ? ? ? ? ?].
    cbn in Hs. subst s. reflexivity.
  - rewrite frames_cons, (frame_looping _ _ c l Hs).
    rewrite (IH _ (animate host (fst f) (snd f) l)) by reflexivity.
    rewrite ticks_cons. reflexivity.
Qed.

Lemma frames_idle (fs : list (Q * Q)) (c : Component) :
  loopOf c = None -> frames host fs c = c.
Proof.
  intros H. induction fs as [|f fs IH]; [reflexivity|].
  now rewrite frames_cons, frame_idle.
Qed.

End ComponentFacts.

(** ** Resources of the scene that [construct] builds *)

Lemma resourcesOf_In (x : Resource) (ns : list nat) :
  In x (resourcesOf ns) -> In (resourceId x) ns.
Proof.
  unfold resourcesOf. rewrite in_flat_map. intros (n & Hn & Hx).
  destruct Hx as [<- | [<- | []]]; exact Hn.
Qed.

Lemma resourcesOf_NoDup (ns : list nat) : NoDup ns -> NoDup (resourcesOf ns).
Proof.
  induction 1 as [|n ns Hn Hnd IH]; [constructor|].
  cbn. constructor; [|constructor; [|exact IH]].
  - intros [E | H]; [discriminate|]. now apply resourcesOf_In in H.
  - intros H. now apply resourcesOf_In in H.
Qed.

Lemma disposeScene_sceneGraph (core : Mesh) (orbits : list Orbit) :
  disposeScene (sceneGraph core orbits)
  = [geometry core; material core]
    ++ flat_map (fun o => [geometry (mesh o); material (mesh o)]) orbits.
Proof.
  unfold disposeScene, sceneGraph. cbn. do 2 f_equal.
  induction orbits as [|o os IH]; [reflexivity|].
  cbn. now rewrite IH.
Qed.

Section SceneResources.

Variable host : Host.

Lemma newOrbits_resources (level : PerformanceLevel) (k r start n : nat) :
  flat_map (fun o => [geometry (mesh o); material (mesh o)])
           (map (newOrbit host level k r) (seq start n))
  = resourcesOf (seq (k + start) n).
Proof.
  revert start. induction n as [|n IH]; intros start; [reflexivity|].
  cbn. rewrite IH. now rewrite Nat.add_succ_r.
Qed.

Lemma sceneResources_ids (level : PerformanceLevel) (k r : nat) :
  sceneResources (newMesh (Geometry k) (Material k))
                 (newOrbits host level (S k) r)
  = resourcesOf (seq k (S (orbitCount level))).
Proof.
  unfold sceneResources, newOrbits, meshResources.
  rewrite newOrbits_resources. cbn. now rewrite Nat.add_0_r.
Qed.

End SceneResources.

(** ** The states of a mounted component are sound *)

Section Soundness.

Variable host : Host.

Lemma initEffect_sound (c : Component) :
  mountRef c = true -> state_error c = false -> accounted c ->
  container c = [] -> disposed c = allocated c ->
  (rendererRef c = None -> sceneRef c = None) ->
  (WebGLRenderingContext host = true /\ awaiting (initEffect host c))
  \/ (WebGLRenderingContext host = false /\ failed (initEffect host c)).
Proof.
  intros Hm He Ha Hc Hd Hr. unfold initEffect. rewrite Hm. cbn [negb].
  destruct (WebGLRenderingContext host); cbn [negb]; [left | right];
    (split; [reflexivity|]).
  - repeat split; cbn; try assumption; apply Ha.
  - repeat split; cbn; assumption.
Qed.

Lemma mount_sound (p r : bool) : sound (mount host p r).
Proof.
  intros _. unfold mount. right.
  match goal with |- context [initEffect host ?c0] =>
    destruct (initEffect_sound c0) as [[_ H] | [_ H]]
  end; cbn; try reflexivity; auto.
  split; constructor.
Qed.

Lemma healthy_cleanup (b : bool) (c : Component) :
  healthy c ->
  exists c',
    cleanup (with_mountRef b c) = Returned c'
    /\ disposed c' = allocated c' /\ allocated c' = allocated c
    /\ accounted c' /\ state_error c' = false /\ mountRef c' = b
    /\ scenes c' = scenes c
    /\ (b = true -> container c' = [])
    /\ rendererRef c' = rendererRef c /\ rendererRef c' <> None
    /\ currentDeps c' = currentDeps c.
Proof.
  intros (He & Ha & l & r & g & Hs & Hr & Hc & Hg & Hal).
  destruct c as [? ? ? ? ? ? ? ? [d s] ? ? ? ? ? ?].
  unfold accounted in *. cbn in He, Ha, Hs, Hr, Hc, Hg, Hal. subst.
  unfold cleanup, cleanupScene, accounted. cbn. rewrite Nat.eqb_refl. cbn.
  destruct b; (eexists; split; [reflexivity|]); cbn.
  - destruct (Nat.eq_dec _ _); [|congruence].
    repeat split; try congruence; apply Ha.
  - repeat split; try congruence; apply Ha.
Qed.

Lemma awaiting_cleanup (c c' : Component) :
  awaiting c -> mountRef c = true -> cleanup c = Returned c' ->
  mountRef c' = true /\ state_error c' = false /\ accounted c'
  /\ container c' = [] /\ disposed c' = allocated c'
  /\ (rendererRef c' = None -> sceneRef c' = None)
  /\ scenes c' = scenes c /\ currentDeps c' = currentDeps c.
Proof.
  intros (He & Ha & Hs & Hc & Hd & Hr) Hm.
  destruct c as [? ? ? ? ? ? rr sr [d s] ? ? ? ? ? ?].
  unfold accounted in *. cbn in He, Ha, Hs, Hc, Hd, Hr, Hm. subst.
  unfold cleanup, cleanupScene, accounted. cbn.
  destruct rr as [r|]; [discriminate|].
  rewrite (Hr eq_refl). intros [= <-]. cbn.
  repeat split; try assumption; apply Ha.
Qed.

Lemma construct_healthy (c : Component) :
  awaiting c ->
  healthy (construct host c) /\ scenes (construct host c) = S (scenes c).
Proof.
  intros (He & [Hnd Hfr] & Hs & Hc & Hd & Hr).
  split; [|reflexivity]. unfold healthy, accounted, construct.
  cbn [state_error allocated nextId effect stage rendererRef container
       sceneRef disposed domElement].
  rewrite sceneResources_ids.
  split; [exact He|]. split; [split|].
  - apply NoDup_app; [exact Hnd | apply resourcesOf_NoDup, seq_NoDup|].
    intros x Hx Hx'. apply resourcesOf_In, in_seq in Hx'.
    rewrite Forall_forall in Hfr. specialize (Hfr x Hx). lia.
  - apply Forall_app. split.
    + eapply Forall_impl; [|exact Hfr]. cbn beta. intros x Hx. lia.
    + apply Forall_forall. intros x Hx.
      apply resourcesOf_In, in_seq in Hx. lia.
  - do 3 eexists. repeat split.
    + now rewrite Hc.
    + rewrite disposeScene_sceneGraph, Hd.
      rewrite <- (sceneResources_ids host (getPerformanceLevel (navigator host))
                    (S (nextId c)) (randoms c)).
      reflexivity.
Qed.

Lemma with_inputs_sound (p r v : bool) (c : Component) :
  (healthy c -> healthy (with_inputs p r v c))
  /\ (awaiting c -> awaiting (with_inputs p r v c))
  /\ (failed c -> failed (with_inputs p r v c)).
Proof. split; [|split]; intros H; exact H. Qed.

Lemma frame_healthy (t dt : Q) (c : Component) :
  healthy c -> healthy (frame host t dt c).
Proof.
  intros (He & Ha & l & r & g & Hs & H). unfold frame. rewrite Hs.
  split; [exact He|]. split; [exact Ha|].
  exists (animate host t dt l), r, g. split; [reflexivity | exact H].
Qed.

Lemma frame_sound (t dt : Q) (c : Component) :
  sound c -> sound (frame host t dt c).
Proof.
  intros H Hm.
  assert (Hm' : mountRef c = true).
  { revert Hm. unfold frame. now destruct (stage (effect c)). }
  destruct (H Hm') as [Hh | [Hw | Hf]].
  - left. now apply frame_healthy.
  - right; left. pose proof Hw as (_ & _ & Hs & _).
    rewrite frame_idle; [exact Hw | unfold loopOf; now rewrite Hs].
  - right; right. pose proof Hf as (_ & Hs & _).
    rewrite frame_idle; [exact Hf | unfold loopOf; now rewrite Hs].
Qed.

Lemma importSettled_sound (res : ImportResult) (c : Component) :
  sound c -> sound (importSettled host res c).
Proof.
  intros H Hm.
  assert (Hm' : mountRef c = true).
  { revert Hm. unfold importSettled.
    destruct (stage (effect c)) as [|[]|l|l|]; try (intros E; exact E);
      destruct res as [|[]]; intros E; exact E. }
  destruct (H Hm') as [Hh | [Hw | Hf]].
  - left. pose proof Hh as (_ & _ & l & r & g & Hs & _).
    unfold importSettled. rewrite Hs. exact Hh.
  - unfold importSettled. pose proof Hw as (He & Ha & Hs & Hc & Hd & Hr).
    rewrite Hs. destruct res as [|[]]; cbn [negb].
    + right; right. repeat split; assumption.
    + left. now apply construct_healthy.
    + right; right. repeat split; assumption.
  - right; right. pose proof Hf as (He & Hs & Hc).
    unfold importSettled. rewrite Hs. exact Hf.
Qed.

Lemma unmount_detached (c c' : Component) :
  unmount c = Returned c' -> mountRef c' = false.
Proof.
  unfold unmount. intros H.
  assert (E : forall c1, cleanup (with_mountRef false c) = Returned c1 ->
                         mountRef c1 = false).
  { intros c1 H1. now destruct (cleanup_frame _ _ H1) as (_ & _ & _ & _ & -> & _). }
  destruct (stage (effect c)); try (now apply E).
  now injection H as <-.
Qed.

Lemma unmount_returns (c : Component) : exists c', unmount c = Returned c'.
Proof.
  unfold unmount, cleanup. cbn [with_stage with_effect with_mountRef
    rendererRef mountRef].
  destruct (stage (effect c)); destruct (rendererRef c); eexists; reflexivity.
Qed.

(** A render that changes a dependency of the effect, on a component
    whose loop runs or whose import is pending. *)
Lemma commit_changed (c c' : Component) :
  mountRef c = true -> healthy c \/ awaiting c ->
  Deps_eqb (deps (effect c)) (currentDeps c) = false ->
  commit host c = Returned c' ->
  exists c1,
    cleanup c = Returned c1 /\ c' = initEffect host c1
    /\ mountRef c1 = true /\ state_error c1 = false /\ accounted c1
    /\ container c1 = [] /\ disposed c1 = allocated c1
    /\ (rendererRef c1 = None -> sceneRef c1 = None)
    /\ scenes c1 = scenes c.
Proof.
  intros Hm H E. unfold commit. rewrite E.
  destruct H as [Hh | Hw].
  - destruct (healthy_cleanup true c Hh)
      as (c1 & Hc & Hd & Hal & Ha & He & Hm1 & Hsc & Hcont & Hr & Hr' & _).
    assert (Ec : with_mountRef true c = c).
    { destruct c. cbn in Hm. subst. reflexivity. }
    rewrite Ec in Hc.
    destruct Hh as (_ & _ & l & _ & _ & Hs & _). rewrite Hs, Hc.
    intros [= <-]. exists c1.
    split; [reflexivity|]. split; [reflexivity|]. split; [exact Hm1|].
    split; [exact He|]. split; [exact Ha|]. split; [now apply Hcont|].
    split; [exact Hd|]. split; [|exact Hsc].
    intros En. now rewrite En in Hr'.
  - pose proof Hw as (_ & _ & Hs & _). rewrite Hs.
    destruct (cleanup c) as [c1|c1] eqn:Hc; [|discriminate].
    intros [= <-]. exists c1.
    destruct (awaiting_cleanup c c1 Hw Hm Hc)
      as (? & ? & ? & ? & ? & ? & ? & ?).
    split; [reflexivity|]. split; [reflexivity|].
    repeat (split; [assumption|]). assumption.
Qed.

Lemma rerender_sound (p r v : bool) (c c' : Component) :
  sound c -> mountRef c = true ->
  rerender host p r v c = Returned c' -> sound c'.
Proof.
  intros H Hm Hr Hm'. unfold rerender in Hr.
  destruct (state_error c) eqn:He.
  { apply unmount_detached in Hr. congruence. }
  destruct (H Hm) as [Hh | [Hw | Hf]];
    [| | destruct Hf as (Hf & _); congruence].
  all: destruct (Deps_eqb (deps (effect (with_inputs p r v c)))
                          (currentDeps (with_inputs p r v c))) eqn:E.
  - unfold commit in Hr. rewrite E in Hr. injection Hr as <-.
    left. now apply with_inputs_sound.
  - destruct (commit_changed (with_inputs p r v c) c') as (c1 & _ & -> & H1);
      [exact Hm | left; now apply with_inputs_sound | exact E | exact Hr |].
    destruct H1 as (? & ? & ? & ? & ? & ? & _).
    destruct (initEffect_sound c1) as [[_ ?] | [_ ?]]; auto.
  - unfold commit in Hr. rewrite E in Hr. injection Hr as <-.
    right; left. now apply with_inputs_sound.
  - destruct (commit_changed (with_inputs p r v c) c') as (c1 & _ & -> & H1);
      [exact Hm | right; now apply with_inputs_sound | exact E | exact Hr |].
    destruct H1 as (? & ? & ? & ? & ? & ? & _).
    destruct (initEffect_sound c1) as [[_ ?] | [_ ?]]; auto.
Qed.

Lemma step_sound (e : Event) (c c' : Component) :
  sound c -> step host c e = Returned c' -> sound c'.
Proof.
  unfold step. intros H Hs.
  destruct (mountRef c) eqn:Hm; cbn [negb] in Hs;
    [|injection Hs as <-; exact H].
  destruct e as [p r|hidden|res|t dt|].
  - eapply rerender_sound; [exact H | exact Hm | exact Hs].
  - eapply rerender_sound; [exact H | exact Hm | exact Hs].
  - injection Hs as <-. now apply importSettled_sound.
  - injection Hs as <-. now apply frame_sound.
  - intros Hm'. apply unmount_detached in Hs. congruence.
Qed.

Lemma run_sound (es : list Event) (c c' : Component) :
  sound c -> run host es c = Returned c' -> sound c'.
Proof.
  revert c. induction es as [|e es IH]; intros c Hi H; cbn in H.
  - now injection H as <-.
  - destruct (step host c e) as [c1|c1] eqn:E; [|discriminate].
    apply (IH c1); [|exact H]. now apply (step_sound e c c1).
Qed.

Lemma reachable_sound (c : Component) : reachable host c -> sound c.
Proof.
  intros (p & r & es & H).
  apply (run_sound es (mount host p r) c); [apply mount_sound | exact H].
Qed.

(** While the component is mounted, a running loop means a healthy
    state, and a reported error a failed one. *)
Lemma reachable_looping (c : Component) (l : Loop) :
  reachable host c -> mountRef c = true ->
  stage (effect c) = Looping l -> healthy c.
Proof.
  intros Hr Hm Hs.
  destruct (reachable_sound c Hr Hm) as [H | [H | H]]; [exact H | |].
  - destruct H as (_ & _ & E & _). congruence.
  - destruct H as (_ & E & _). congruence.
Qed.


Lemma reachable_error (c : Component) :
  reachable host c -> mountRef c = true ->
  state_error c = true -> failed c.
Proof.
  intros Hr Hm He.
  destruct (reachable_sound c Hr Hm) as [H | [H | H]]; [| | exact H].
  - destruct H as (E & _). congruence.
  - destruct H as (E & _). congruence.
Qed.

End Soundness.

Section Started.

Variable host : Host.
Hypothesis webgl : WebGLRenderingContext host = true.

Lemma mount_awaiting (p r : bool) :
  awaiting (mount host p r) /\ mountRef (mount host p r) = true
  /\ scenes (mount host p r) = 0%nat.
Proof.
  unfold mount, initEffect. cbn [mountRef negb]. rewrite webgl. cbn [negb].
  repeat split; try constructor; discriminate.
Qed.

Lemma started_shape (p r : bool) :
  exists l0,
    stage (effect (started host p r)) = Looping (animate host 0 0 l0)
    /\ performanceLevel l0 = getPerformanceLevel (navigator host)
    /\ length (orbits l0) = orbitCount (getPerformanceLevel (navigator host))
    /\ paused l0 = p /\ prefersReducedMotion l0 = r
    /\ rendererRef (started host p r)
       = Some {| domElement := 0;
                 antialias :=
                   antialias_of (getPerformanceLevel (navigator host)) |}
    /\ scenes (started host p r) = 1%nat
    /\ mountRef (started host p r) = true.
Proof.
  unfold started, mount, initEffect. cbn [mountRef negb]. rewrite webgl.
  cbn [negb]. unfold importSettled. cbn.
  eexists. split; [reflexivity|]. cbn.
  unfold newOrbits. rewrite length_map, length_seq. repeat split.
Qed.

Lemma started_reachable (p r : bool) : reachable host (started host p r).
Proof.
  exists p, r, [ImportSettled (ImportResolved true)]. cbn [run].
  unfold step. destruct (mount_awaiting p r) as (_ & -> & _). reflexivity.
Qed.

End Started.

(** C3: for every reported processor count [hc] and memory [mem], the
    tier is [low] when [hc <= 4] or [mem <= 4] and [high] otherwise;
    [low] means 8 spheres, 30 fps and no antialiasing, [high] 12
    spheres, 60 fps and antialiasing; the initialisation selects the
    tier once: the loop, its spheres and the renderer have it after any
    number of frame ticks. *)
Theorem quality_tier (host : Host) (hc mem : Q) (p r : bool)
    (fs : list (Q * Q)) :
  navigator host
  = {| hardwareConcurrency := JsNum hc; deviceMemory := JsNum mem |} ->
  WebGLRenderingContext host = true ->
  let tier := getPerformanceLevel (navigator host) in
  (hc <= 4 \/ mem <= 4 -> tier = low)
  /\ (~ (hc <= 4 \/ mem <= 4) -> tier = high)
  /\ (orbitCount low = 8%nat /\ targetFPS low = 30
      /\ antialias_of low = false)
  /\ (orbitCount high = 12%nat /\ targetFPS high = 60
      /\ antialias_of high = true)
  /\ exists l ren,
       stage (effect (frames host fs (started host p r))) = Looping l
       /\ rendererRef (frames host fs (started host p r)) = Some ren
       /\ performanceLevel l = tier
       /\ length (orbits l) = orbitCount tier
       /\ frameInterval (performanceLevel l) = 1000 / targetFPS tier
       /\ antialias ren = antialias_of tier.
Proof.
  intros Hnav Hgl tier.
  assert (Ht : tier = if Qle_bool hc 4 || Qle_bool mem 4 then low else high).
  { subst tier. rewrite Hnav. apply getPerformanceLevel_reported. }
  destruct (low_or_high hc mem) as [Hlow Hhigh].
  split; [intros H; now rewrite Ht, (Hlow H)|].
  split; [intros H; now rewrite Ht, (Hhigh H)|].
  split; [repeat split|]. split; [repeat split|].
  destruct (started_shape host Hgl p r)
    as (l0 & Hs & Hl & Hn & _ & _ & Hr & _).
  rewrite (frames_looping host fs _ _ Hs). cbn [with_stage with_effect effect
    stage rendererRef].
  do 2 eexists. split; [reflexivity|]. split; [exact Hr|].
  change (ticks host fs (animate host 0 0 l0))
    with (ticks host ((0, 0) :: fs) l0).
  destruct (ticks_closure host ((0, 0) :: fs) l0) as (_ & _ & _ & -> & ->).
  fold tier in Hl, Hn. rewrite Hl. repeat split. exact Hn.
Qed.

(** C10: a host that reports no processor count or no device memory
    has the missing signal read as 4, so the tier is [low]: 8 spheres,
    30 fps, no antialiasing. *)
Theorem missing_signal_is_low (nav : Navigator) :
  hardwareConcurrency nav = JsUndefined \/ deviceMemory nav = JsUndefined ->
  or_default JsUndefined 4 = 4
  /\ getPerformanceLevel nav = low
  /\ orbitCount (getPerformanceLevel nav) = 8%nat
  /\ targetFPS (getPerformanceLevel nav) = 30
  /\ antialias_of (getPerformanceLevel nav) = false.
Proof.
  intros H.
  assert (E : getPerformanceLevel nav = low).
  { unfold getPerformanceLevel. destruct H as [-> | ->]; cbn.
    - reflexivity.
    - now rewrite orb_true_r. }
  rewrite E. repeat split.
Qed.

(** ** Traversal visits every position once *)

Lemma childPositions_head (pos : Object3D -> list (list nat)) (cs : list Object3D)
    (i : nat) (p : list nat) :
  In p (childPositions pos i cs) ->
  exists j q, p = j :: q /\ (i <= j)%nat.
Proof.
  revert i. induction cs as [|c cs IH]; intros i; cbn; [intros []|].
  rewrite in_app_iff, in_map_iff. intros [(q & <- & _) | H].
  - exists i, q. split; [reflexivity | lia].
  - destruct (IH _ H) as (j & q & -> & Hj). exists j, q. split; [reflexivity | lia].
Qed.

Lemma childPositions_NoDup (pos : Object3D -> list (list nat))
    (cs : list Object3D) (i : nat) :
  Forall (fun c => NoDup (pos c)) cs -> NoDup (childPositions pos i cs).
Proof.
  intros H. revert i. induction H as [|c cs Hc _ IH]; intros i; cbn.
  - constructor.
  - apply NoDup_app.
    + apply Injective_map_NoDup; [|exact Hc]. intros a b [= E]. exact E.
    + apply IH.
    + intros p Hp Hq. apply in_map_iff in Hp as (q & <- & _).
      apply childPositions_head in Hq as (j & q' & [= <- _] & Hj). lia.
Qed.

Lemma childPositions_subtree (g : option Resource) (m : option MaterialSlot)
    (cs pre : list Object3D) :
  Forall (fun c => map (subtree c) (positions c) = map Some (traverse c)) cs ->
  map (subtree (Object g m (pre ++ cs)))
      (childPositions positions (length pre) cs)
  = map Some (flat_map traverse cs).
Proof.
  intros H. revert pre. induction H as [|c cs Hc _ IH]; intros pre.
  - reflexivity.
  - cbn [childPositions flat_map]. rewrite !map_app, map_map. f_equal.
    + rewrite <- Hc. apply map_ext. intros p. cbn [subtree children].
      rewrite nth_error_app2, Nat.sub_diag by lia. reflexivity.
    + specialize (IH (pre ++ [c])).
      rewrite <- app_assoc, length_app, Nat.add_1_r in IH. exact IH.
Qed.

Lemma childPositions_complete (pos : Object3D -> list (list nat))
    (cs : list Object3D) (i j : nat) (c : Object3D) (q : list nat) :
  nth_error cs j = Some c -> In q (pos c) ->
  In ((i + j)%nat :: q) (childPositions pos i cs).
Proof.
  revert i j. induction cs as [|c0 cs IH]; intros i j Hj Hq.
  - now destruct j.
  - cbn. apply in_app_iff. destruct j as [|j]; cbn in Hj.
    + injection Hj as ->. left. rewrite Nat.add_0_r. now apply in_map.
    + right. rewrite Nat.add_succ_r. apply (IH (S i) j Hj Hq).
Qed.

(** [traverse] calls its callback on the object at each position of the
    graph, once per position, whatever the nesting. *)
Lemma traverse_visits_once (o : Object3D) :
  map (subtree o) (positions o) = map Some (traverse o)
  /\ NoDup (positions o)
  /\ (forall p, subtree o p <> None <-> In p (positions o)).
Proof.
  assert (A : forall o, map (subtree o) (positions o) = map Some (traverse o)).
  { induction o0 as [g m cs IH] using Object3D_nested_ind.
    cbn [positions traverse map subtree]. f_equal.
    apply (childPositions_subtree g m cs [] IH). }
  assert (B : forall o, NoDup (positions o)).
  { induction o0 as [g m cs IH] using Object3D_nested_ind.
    cbn [positions]. constructor.
    - intros H. apply childPositions_head in H as (j & q & [=] & _).
    - now apply childPositions_NoDup. }
  assert (C : forall o p, subtree o p <> None -> In p (positions o)).
  { induction o0 as [g m cs IH] using Object3D_nested_ind.
    intros [|j q] H; [now left|]. right. cbn [subtree children] in H.
    destruct (nth_error cs j) as [c|] eqn:Hj; [|congruence].
    rewrite Forall_forall in IH.
    apply (childPositions_complete positions cs 0 j c q Hj).
    apply IH; [now apply nth_error_In in Hj | exact H]. }
  split; [apply A|]. split; [apply B|]. intros p. split; [apply C|].
  intros Hp E.
  assert (Hin : In None (map (subtree o) (positions o))).
  { rewrite <- E. now apply in_map. }
  rewrite A in Hin. apply in_map_iff in Hin as (x & [=] & _).
Qed.

(** ** Teardown *)

(** C8: when the initialisation has succeeded (the loop runs), the
    teardown returns; its traversal calls the callback on the object at
    every position of the scene graph once; it disposes the geometry and
    the material of each object of the scene, and afterwards every
    geometry and material ever created is disposed exactly once.  This
    holds whether React kept the ref of the host [div] (a dependency
    changed) or detached it (unmount). *)
Theorem teardown_releases_everything (host : Host) (c : Component)
    (l : Loop) (b : bool) :
  reachable host c -> mountRef c = true -> stage (effect c) = Looping l ->
  exists c' g,
    sceneRef c = Some g
    /\ cleanup (with_mountRef b c) = Returned c'
    /\ (map (subtree g) (positions g) = map Some (traverse g)
        /\ NoDup (positions g)
        /\ forall p, subtree g p <> None <-> In p (positions g))
    /\ disposed c' = disposed c ++ flat_map disposeObject (traverse g)
    /\ disposed c' = allocated c'
    /\ NoDup (disposed c')
    /\ forall x, In x (allocated c') ->
                 count_occ Resource_eq_dec (disposed c') x = 1%nat.
Proof.
  intros Hr Hm Hs.
  pose proof (reachable_looping host c l Hr Hm Hs) as Hh.
  destruct (healthy_cleanup b c Hh)
    as (c' & Hc & Hd & Hal & [Hnd _] & _).
  destruct Hh as (_ & _ & l' & r & g & _ & Hren & Hcont & Hg & Halloc).
  exists c', g. split; [exact Hg|]. split; [exact Hc|].
  split; [apply traverse_visits_once|].
  split; [fold (disposeScene g); congruence|].
  split; [exact Hd|]. rewrite Hd. split; [exact Hnd|].
  intros x Hx. apply NoDup_count_occ'; assumption.
Qed.

(** C9: when the first initialisation fails (no WebGL, the import
    rejected, or a constructor that throws), the teardown returns and
    the host [div] has no canvas, whether or not React detached its ref;
    and in every reachable state with a reported initialisation error
    the teardown of the unmount returns and leaves no canvas. *)
Theorem teardown_after_failed_init (host : Host) :
  (forall p r res b,
      WebGLRenderingContext host = false
      \/ res = ImportRejected \/ res = ImportResolved false ->
      let c := importSettled host res (mount host p r) in
      state_error c = true
      /\ exists c',
           cleanup (with_mountRef b c) = Returned c'
           /\ container c' = [] /\ disposed c' = [] /\ released c' = [])
  /\ (forall c,
        reachable host c -> mountRef c = true -> state_error c = true ->
        exists c', unmount c = Returned c' /\ container c' = []).
Proof.
  split.
  - intros p r res b H c. subst c.
    unfold mount, initEffect. cbn [mountRef negb].
    destruct (WebGLRenderingContext host) eqn:Hgl; cbn [negb].
    + destruct H as [H | [-> | ->]]; [discriminate| |];
        (split; [reflexivity|]); eexists;
        (split; [unfold cleanup; cbn; reflexivity|]); repeat split.
    + unfold importSettled. cbn [setError with_effect effect stage].
      split; [reflexivity|]. eexists.
      split; [unfold cleanup; cbn; reflexivity|]. repeat split.
  - intros c Hr Hm He.
    destruct (reachable_error host c Hr Hm He) as (_ & Hs & Hc).
    destruct (unmount_returns c) as [c' Hu]. exists c'.
    split; [exact Hu|].
    unfold unmount in Hu. rewrite Hs in Hu. unfold cleanup, cleanupScene in Hu.
    cbn [with_stage with_effect with_mountRef rendererRef mountRef sceneRef]
      in Hu.
    destruct (rendererRef c), (sceneRef c); injection Hu as <-; exact Hc.
Qed.

(** ** One scene per run of the effect *)

Lemma initEffect_frame (host : Host) (c : Component) :
  container (initEffect host c) = container c
  /\ disposed (initEffect host c) = disposed c
  /\ allocated (initEffect host c) = allocated c
  /\ scenes (initEffect host c) = scenes c
  /\ nextId (initEffect host c) = nextId c
  /\ loopOf (initEffect host c) = None.
Proof.
  unfold initEffect.
  destruct (negb (mountRef c)); [|destruct (negb (WebGLRenderingContext host))];
    repeat split.
Qed.

Lemma with_mountRef_same (c : Component) :
  mountRef c = true -> with_mountRef true c = c.
Proof. destruct c. cbn. now intros ->. Qed.


(** ** Errors stay, and no scene comes before the first renderer *)

Lemma cleanup_keeps (c c' : Component) :
  cleanup c = Returned c' ->
  state_error c' = state_error c /\ rendererRef c' = rendererRef c
  /\ scenes c' = scenes c.
Proof.
  destruct c as [? ? ? ? mr ? rr sr [d s] ? ? ? ? ? ?].
  unfold cleanup, cleanupScene. cbn.
  destruct rr as [r|]; [destruct mr|].
  - destruct (existsb _ _); [|discriminate].
    intros [= <-]. destruct sr; repeat split.
  - intros [= <-]. destruct sr; repeat split.
  - intros [= <-]. destruct sr; repeat split.
Qed.

Lemma initEffect_keeps (host : Host) (c : Component) :
  rendererRef (initEffect host c) = rendererRef c
  /\ scenes (initEffect host c) = scenes c
  /\ mountRef (initEffect host c) = mountRef c
  /\ currentDeps (initEffect host c) = currentDeps c
  /\ (state_error (initEffect host c) = false -> state_error c = false).
Proof.
  unfold initEffect.
  destruct (negb (mountRef c)); [|destruct (negb (WebGLRenderingContext host))];
    cbn; repeat split; try (intros H; exact H); intros H; discriminate H.
Qed.

(** What a state without error and without renderer comes from. *)
Lemma step_back (host : Host) (e : Event) (c c' : Component) :
  step host c e = Returned c' -> state_error c' = false ->
  state_error c = false
  /\ (rendererRef c' = None ->
      rendererRef c = None /\ scenes c' = scenes c).
Proof.
  unfold step. intros Hs He.
  destruct (mountRef c); cbn [negb] in Hs;
    [|injection Hs as <-; split; [exact He | intros H; now split]].
  assert (U : forall c0, unmount c0 = Returned c' ->
             state_error c0 = false
             /\ (rendererRef c' = None ->
                 rendererRef c0 = None /\ scenes c' = scenes c0)).
  { intros c0 Hu. unfold unmount in Hu.
    destruct (stage (effect c0)) eqn:Es;
      [injection Hu as <-; split; [exact He | intros H; now split] | ..];
      destruct (cleanup_keeps _ _ Hu) as (E1 & E2 & E3);
      cbn [with_mountRef state_error rendererRef scenes] in E1, E2, E3;
      (split; [congruence | intros H; split; congruence]). }
  assert (R : forall p r v, rerender host p r v c = Returned c' ->
             state_error c = false
             /\ (rendererRef c' = None ->
                 rendererRef c = None /\ scenes c' = scenes c)).
  { intros p r v H. unfold rerender in H.
    destruct (state_error c) eqn:Ec.
    { destruct (U c H) as [X _]. congruence. }
    split; [reflexivity|]. intros Hr.
    unfold commit in H. destruct (Deps_eqb _ _).
    - injection H as <-. now split.
    - cbn [with_inputs effect stage] in H.
      assert (I : forall c1, c' = initEffect host c1 ->
                 rendererRef c1 = rendererRef c -> scenes c1 = scenes c ->
                 rendererRef c = None /\ scenes c' = scenes c).
      { intros c1 -> K1 K2.
        destruct (initEffect_keeps host c1) as (I1 & I2 & _).
        split; congruence. }
      destruct (stage (effect c)).
      + injection H as H. symmetry in H. now apply I in H.
      + destruct (cleanup _) as [c1|] eqn:K; [|discriminate].
        injection H as H. symmetry in H.
        destruct (cleanup_keeps _ _ K) as (_ & K2 & K3). now apply I in H.
      + destruct (cleanup _) as [c1|] eqn:K; [|discriminate].
        injection H as H. symmetry in H.
        destruct (cleanup_keeps _ _ K) as (_ & K2 & K3). now apply I in H.
      + destruct (cleanup _) as [c1|] eqn:K; [|discriminate].
        injection H as H. symmetry in H.
        destruct (cleanup_keeps _ _ K) as (_ & K2 & K3). now apply I in H.
      + destruct (cleanup _) as [c1|] eqn:K; [|discriminate].
        injection H as H. symmetry in H.
        destruct (cleanup_keeps _ _ K) as (_ & K2 & K3). now apply I in H. }
  destruct e as [p r|hidden|res|t dt|].
  - now apply R in Hs.
  - now apply R in Hs.
  - injection Hs as <-. revert He. unfold importSettled.
    destruct (stage (effect c)) as [|[|]| | |]; try (intros H; now split; [|intros; split]);
      destruct res as [|[|]]; cbn [negb];
      try (intros H; discriminate H);
      try (intros H; split; [exact H | intros H'; now split]).
  - injection Hs as <-. revert He. unfold frame.
    destruct (stage (effect c)); intros H; (split; [exact H | intros; now split]).
  - now apply U.
Qed.

Lemma run_back (host : Host) (es : list Event) (c c' : Component) :
  run host es c = Returned c' -> state_error c' = false ->
  state_error c = false
  /\ (rendererRef c' = None ->
      rendererRef c = None /\ scenes c' = scenes c).
Proof.
  revert c. induction es as [|e es IH]; intros c H He; cbn in H.
  - injection H as <-. split; [exact He | intros; now split].
  - destruct (step host c e) as [c1|] eqn:E; [|discriminate].
    destruct (IH c1 H He) as [He1 Hn].
    destruct (step_back host e c c1 E He1) as [He0 Hn0].
    split; [exact He0|]. intros Hr.
    destruct (Hn Hr) as [Hr1 Hs1]. destruct (Hn0 Hr1) as [Hr0 Hs0].
    split; congruence.
Qed.

(** A mounted component without error runs on a host with WebGL, and
    has created no scene while [rendererRef] is empty. *)
Lemma reachable_fresh (host : Host) (c : Component) :
  reachable host c -> state_error c = false ->
  WebGLRenderingContext host = true
  /\ (rendererRef c = None -> scenes c = 0%nat).
Proof.
  intros (p & r & es & H) He.
  destruct (run_back host es _ _ H He) as [He0 Hn]. split.
  - revert He0. unfold mount, initEffect. cbn [mountRef negb].
    destruct (WebGLRenderingContext host); [reflexivity|].
    cbn. intros X. discriminate X.
  - intros Hr. destruct (Hn Hr) as [_ ->].
    unfold mount, initEffect. cbn [mountRef negb].
    now destruct (WebGLRenderingContext host).
Qed.

Lemma run_app (host : Host) (es1 es2 : list Event) (c : Component) :
  run host (es1 ++ es2) c
  = match run host es1 c with
    | Returned c1 => run host es2 c1
    | Raised c1 => Raised c1
    end.
Proof.
  revert c. induction es1 as [|e es1 IH]; intros c; [reflexivity|].
  cbn. destruct (step host c e); [apply IH | reflexivity].
Qed.

Lemma reachable_run (host : Host) (es : list Event) (c c' : Component) :
  reachable host c -> run host es c = Returned c' -> reachable host c'.
Proof.
  intros (p & r & es0 & H0) H. exists p, r, (es0 ++ es).
  now rewrite run_app, H0.
Qed.



(** ** Pausing *)

Lemma newOrbits_at_origin (host : Host) (level : PerformanceLevel)
    (id r : nat) :
  Forall (fun o => position (mesh o) = Vec3.zero) (newOrbits host level id r).
Proof.
  apply Forall_forall. intros o H. unfold newOrbits in H.
  apply in_map_iff in H as (i & <- & _). reflexivity.
Qed.

(** C6 (as amended): pausing does not hold the orbiting spheres where
    they were.  The render that passes [paused = true] to a running
    component tears the scene down (no sphere is left, the canvas is
    detached), and the scene built when the import of the new run
    resolves has new spheres, all at the origin, where
    [new THREE.Mesh] puts them.  From then on, and in every state the
    component can reach in which [paused] is true, any number of frame
    ticks leaves every sphere, its position included, as it was. *)
Theorem paused_positions_hold (host : Host) (c : Component) (l : Loop)
    (r : bool) :
  reachable host c -> mountRef c = true -> stage (effect c) = Looping l ->
  prop_paused c = false ->
  (exists c1 l2,
      step host c (Render true r) = Returned c1
      /\ prop_paused c1 = true /\ spheres c1 = [] /\ container c1 = []
      /\ disposed c1 = allocated c
      /\ stage (effect (importSettled host (ImportResolved true) c1))
         = Looping l2
      /\ paused l2 = true
      /\ length (orbits l2) = orbitCount (getPerformanceLevel (navigator host))
      /\ Forall (fun o => position (mesh o) = Vec3.zero) (orbits l2)
      /\ forall fs,
           spheres (frames host fs
                      (importSettled host (ImportResolved true) c1))
           = orbits l2)
  /\ (forall c' fs,
        reachable host c' -> prop_paused c' = true ->
        spheres (frames host fs c') = spheres c'
        /\ map (fun o => position (mesh o)) (spheres (frames host fs c'))
           = map (fun o => position (mesh o)) (spheres c')).
Proof.
  intros Hr Hm Hs Hp. split.
  - pose proof (reachable_looping host c l Hr Hm Hs) as Hh.
    pose proof Hh as (He & _).
    destruct (reachable_inSync host c Hr) as [Hd _].
    set (v := state_isVisible c).
    assert (E : Deps_eqb (deps (effect (with_inputs true r v c)))
                         (currentDeps (with_inputs true r v c)) = false).
    { destruct (Deps_eqb _ _) eqn:E; [|reflexivity].
      apply Deps_eqb_eq in E. cbn in E. rewrite Hd in E.
      apply (f_equal dep_paused) in E. cbn in E. congruence. }
    destruct (healthy_cleanup true (with_inputs true r v c))
      as (c0 & Hc & Hdis & Hal & Ha & He1 & Hm1 & _ & Hcont & _ & Hren
          & Hcd).
    { now apply with_inputs_sound. }
    rewrite with_mountRef_same in Hc by exact Hm.
    destruct (initEffect_frame host c0) as (Ic & Id & _).
    destruct (initEffect_keeps host c0) as (_ & _ & _ & Icd & _).
    destruct (initEffect_inSync host c0) as [Isync _].
    destruct (reachable_fresh host c Hr He) as [Hgl _].
    destruct (initEffect_sound host c0) as [[_ Hw] | [Hgl' _]];
      try assumption; try congruence; try (now apply Hcont).
    pose proof Hw as (_ & _ & Hst1 & _).
    assert (Hp1 : prop_paused (initEffect host c0) = true).
    { change (dep_paused (currentDeps (initEffect host c0)) = true).
      now rewrite Icd, Hcd. }
    assert (Hdp : dep_paused (deps (effect (initEffect host c0))) = true).
    { now rewrite Isync. }
    set (c1 := initEffect host c0) in *.
    set (level := getPerformanceLevel (navigator host)).
    set (l0 := newLoop (deps (effect c1)) level
                 (newMesh (Geometry (S (nextId c1))) (Material (S (nextId c1))))
                 (newOrbits host level (S (S (nextId c1))) (randoms c1))).
    assert (Hl0 : paused l0 = true) by exact Hdp.
    assert (Hc2 : stage (effect (importSettled host (ImportResolved true) c1))
                  = Looping (animate host 0 0 l0)).
    { unfold importSettled. rewrite Hst1. reflexivity. }
    destruct (paused_ticks_idle host [(0, 0)] l0 Hl0) as [Ho _].
    change (ticks host [(0, 0)] l0) with (animate host 0 0 l0) in Ho.
    assert (Hl2 : paused (animate host 0 0 l0) = true).
    { destruct (ticks_closure host [(0, 0)] l0) as (_ & H & _).
      change (ticks host [(0, 0)] l0) with (animate host 0 0 l0) in H.
      now rewrite H. }
    exists c1, (animate host 0 0 l0).
    split.
    { unfold step. rewrite Hm. cbn [negb]. fold v.
      unfold rerender, commit. rewrite He, E.
      cbn [with_inputs effect stage]. rewrite Hs. now rewrite Hc. }
    split; [exact Hp1|].
    split; [unfold spheres; now rewrite Hst1|].
    split; [rewrite Ic; now apply Hcont|].
    split; [rewrite Id, Hdis; exact Hal|].
    split; [exact Hc2|]. split; [exact Hl2|].
    split; [rewrite Ho; cbn; unfold newOrbits;
            now rewrite length_map, length_seq|].
    split; [rewrite Ho; apply newOrbits_at_origin|].
    intros fs. rewrite (frames_looping host fs _ _ Hc2).
    unfold spheres. cbn. now apply paused_ticks_idle.
  - intros c' fs Hr' Hp'.
    assert (E : spheres (frames host fs c') = spheres c').
    { destruct (reachable_inSync host c' Hr') as [Hd Hl].
      destruct (stage (effect c')) as [| |l'| |] eqn:Hs';
        try (rewrite frames_idle;
             [reflexivity | unfold loopOf; now rewrite Hs']).
      rewrite (frames_looping host fs c' l' Hs'). unfold spheres. cbn.
      rewrite Hs'. apply paused_ticks_idle.
      rewrite (Hl l' eq_refl), Hd. exact Hp'. }
    now rewrite E.
Qed.

(** ** Concrete runs *)

Example idleLoop_of_demoPaused : loopOf demoPaused = Some idleLoop.
Proof. reflexivity. Qed.

Example lowLoop_of_smallRunning :
  loopOf smallRunning = Some (animate smallHost 100 0 lowLoop).
Proof. reflexivity. Qed.

(** C1, counterexample: the demo component is mounted with [paused];
    the frame at 100 ms issues no render call. *)
Lemma paused_tick_issues_no_render :
  paused idleLoop = true
  /\ rendered idleLoop = []
  /\ rendered (animate demoHost 100 (1 # 60) idleLoop) = []
  /\ rendered (animate demoHost 100 (1 # 60) idleLoop)
     <> 100 :: rendered idleLoop.
Proof. repeat split. discriminate. Qed.

Lemma suspended_tick_witness :
  paused idleLoop = true
  /\ rendered (animate demoHost 100 (1 # 60) idleLoop) = rendered idleLoop.
Proof.
  split; [reflexivity|].
  exact (proj1 (proj2 (suspended_tick_only_reschedules demoHost 100 (1 # 60)
                         idleLoop (or_intror (or_intror eq_refl))))).
Defined.


(** A change of [paused] while the first initialisation awaits its
    import: two runs of the effect, one scene. *)
Example change_during_first_import :
  match run demoHost [Render true false; ImportSettled (ImportResolved true)]
            (mount demoHost false false) with
  | Returned c => scenes c = 1%nat /\ length (container c) = 1%nat
  | Raised _ => False
  end.
Proof. vm_compute. split; reflexivity. Qed.

(** Two changes of [paused] while the rebuild awaits its import: the
    second cleanup raises. *)
Example change_during_rebuild_import :
  match run demoHost
            [ImportSettled (ImportResolved true); Render true false;
             Render false false]
            (mount demoHost false false) with
  | Returned _ => False
  | Raised c => scenes c = 1%nat /\ container c = []
  end.
Proof. vm_compute. split; reflexivity. Qed.


Lemma quality_tier_witness :
  WebGLRenderingContext demoHost = true
  /\ getPerformanceLevel (navigator demoHost) = high.
Proof.
  split; [reflexivity|].
  refine (proj1 (proj2 (quality_tier demoHost 8 8 false false []
                          eq_refl eq_refl)) _).
  intros [H | H]; apply H; reflexivity.
Defined.

(** C4, counterexample: the low tier, interval 1000/30 ms; after the
    frame rendered at 100 ms, the ticks at 105 ms and 110 ms, 5 ms
    apart, produce no render. *)
Lemma two_ticks_no_render :
  let l := animate smallHost 100 0 lowLoop in
  frameInterval (performanceLevel l) = 1000 / 30
  /\ suspended l = false
  /\ rendered l = [100]
  /\ rendered (ticks smallHost [(105, 5 # 1000); (110, 5 # 1000)] l) = [100]
  /\ length (rendered (ticks smallHost [(105, 5 # 1000); (110, 5 # 1000)] l))
     <> S (length (rendered l)).
Proof. cbv zeta. repeat split. discriminate. Qed.

Lemma frame_pacing_witness :
  performanceLevel lowLoop = low
  /\ length (rendered (ticks smallHost [(100, 0); (100 + 5, 0)] lowLoop))
     = S (length (rendered lowLoop)).
Proof.
  split; [reflexivity|].
  refine (proj2 (proj2 (proj2 (proj2 (frame_pacing smallHost lowLoop)))
                   100 0 0 eq_refl) eq_refl _).
  discriminate.
Defined.

Lemma reduced_motion_witness :
  prefersReducedMotion stillLoop = true
  /\ orbits (ticks smallHost [(100, 1 # 10); (200, 1 # 10)] stillLoop)
     = orbits stillLoop.
Proof.
  split; [reflexivity|].
  exact (proj1 (proj2 (reduced_motion_no_drift smallHost
                         [(100, 1 # 10); (200, 1 # 10)] stillLoop eq_refl))).
Defined.

(** C6, counterexample: the first sphere of the running demo component
    is at x = 2.75 when its parent pauses it; in the scene that the
    pause rebuilds, the first sphere is at the origin, and two ticks
    later it still is. *)
Lemma pause_moves_spheres_to_origin :
  prop_paused demoMoving = false
  /\ run demoHost [Render true false; ImportSettled (ImportResolved true)]
         demoMoving
     = demoRepaused
  /\ match demoRepaused with
     | Returned c =>
         prop_paused c = true
         /\ exists o o',
              nth_error (spheres demoMoving) 0 = Some o
              /\ nth_error
                   (spheres (frames demoHost [(200, 1 # 10); (300, 1 # 10)] c))
                   0 = Some o'
              /\ Vec3.x (position (mesh o)) == 2.75
              /\ position (mesh o') = Vec3.zero
              /\ ~ Vec3.x (position (mesh o')) == Vec3.x (position (mesh o))
     | Raised _ => False
     end.
Proof.
  split; [reflexivity|]. split; [vm_compute; reflexivity|].
  vm_compute. split; [reflexivity|].
  do 2 eexists. split; [reflexivity|]. split; [reflexivity|].
  split; [reflexivity|]. split; [reflexivity|]. discriminate.
Qed.

Lemma paused_positions_witness :
  reachable smallHost smallRunning
  /\ prop_paused smallRunning = false
  /\ exists c1 l2,
       step smallHost smallRunning (Render true false) = Returned c1
       /\ prop_paused c1 = true /\ spheres c1 = [] /\ container c1 = []
       /\ disposed c1 = allocated smallRunning
       /\ stage (effect (importSettled smallHost (ImportResolved true) c1))
          = Looping l2
       /\ paused l2 = true
       /\ length (orbits l2)
          = orbitCount (getPerformanceLevel (navigator smallHost))
       /\ Forall (fun o => position (mesh o) = Vec3.zero) (orbits l2)
       /\ forall fs,
            spheres (frames smallHost fs
                       (importSettled smallHost (ImportResolved true) c1))
            = orbits l2.
Proof.
  assert (R : reachable smallHost smallRunning).
  { exists false, false,
      [ImportSettled (ImportResolved true); AnimationFrame 100 0].
    reflexivity. }
  split; [exact R|]. split; [reflexivity|].
  exact (proj1 (paused_positions_hold smallHost smallRunning
                  (animate smallHost 100 0 lowLoop) false
                  R eq_refl eq_refl eq_refl)).
Defined.

Lemma moving_frame_witness :
  suspended lowLoop = false /\ due 100 lowLoop = true
  /\ prefersReducedMotion lowLoop = false
  /\ rendered (animate smallHost 100 (1 # 10) lowLoop)
     = 100 :: rendered lowLoop.
Proof.
  split; [reflexivity|]. split; [reflexivity|]. split; [reflexivity|].
  exact (proj2 (proj2 (proj2 (proj2
           (moving_frame_update smallHost 100 (1 # 10) lowLoop
              eq_refl eq_refl eq_refl))))).
Defined.

Lemma teardown_witness :
  mountRef (started demoHost false false) = true
  /\ exists c' g,
       sceneRef (started demoHost false false) = Some g
       /\ cleanup (with_mountRef true (started demoHost false false))
          = Returned c'
       /\ (map (subtree g) (positions g) = map Some (traverse g)
           /\ NoDup (positions g)
           /\ forall p, subtree g p <> None <-> In p (positions g))
       /\ disposed c'
          = disposed (started demoHost false false)
            ++ flat_map disposeObject (traverse g)
       /\ disposed c' = allocated c'
       /\ NoDup (disposed c')
       /\ forall x, In x (allocated c') ->
                    count_occ Resource_eq_dec (disposed c') x = 1%nat.
Proof.
  split; [reflexivity|].
  refine (teardown_releases_everything demoHost (started demoHost false false)
            _ true _ _ _); [|reflexivity|reflexivity].
  apply (started_reachable demoHost eq_refl false false).
Defined.

Lemma failed_init_witness :
  state_error (importSettled demoHost ImportRejected (mount demoHost false false))
  = true.
Proof.
  exact (proj1 (proj1 (teardown_after_failed_init demoHost)
                  false false ImportRejected true
                  (or_intror (or_introl eq_refl)))).
Defined.

Lemma missing_signal_witness :
  getPerformanceLevel
    {| hardwareConcurrency := JsUndefined; deviceMemory := JsNum 8 |} = low.
Proof.
  exact (proj1 (proj2 (missing_signal_is_low
                         {| hardwareConcurrency := JsUndefined;
                            deviceMemory := JsNum 8 |}
                         (or_introl eq_refl)))).
Defined.


(** * Further properties *)

(** ** The loop, call after call *)

Lemma frameInterval_pos (level : PerformanceLevel) : 0 < frameInterval level.
Proof. destruct level; reflexivity. Qed.

Lemma animate_requested (host : Host) (t dt : Q) (l : Loop) :
  requested (animate host t dt l) = S (requested l).
Proof.
  destruct (animate_cases host t dt l) as [-> | (_ & _ & ->)];
    [|destruct (negb (prefersReducedMotion l))]; reflexivity.
Qed.

(** X1: every call of [animate] (suspended, too early or rendering)
    requests exactly one next frame: after any callbacks the loop has
    requested one frame per callback, and one is always pending. *)
Theorem one_request_per_callback (host : Host) (fs : list (Q * Q)) (l : Loop) :
  requested (ticks host fs l) = (requested l + length fs)%nat
  /\ forall t dt, requested (animate host t dt (ticks host fs l))
                  = S (requested (ticks host fs l)).
Proof.
  split; [|intros t dt; apply animate_requested].
  revert l. induction fs as [|f fs IH]; intros l.
  - cbn. lia.
  - rewrite ticks_cons, IH, animate_requested. cbn. lia.
Qed.

Lemma animate_loopInv (host : Host) (t dt : Q) (l : Loop) :
  loopInv l -> loopInv (animate host t dt l).
Proof.
  intros (Hm & Hp & Hall & Hnil & Hz & Hc).
  pose proof (paced_animate host t dt l Hp) as Hp'.
  destruct (animate_cases host t dt l) as [E | (Hs & Hd & E)].
  - rewrite E in *. repeat split; try assumption; apply Hp'.
  - destruct (after_render host t dt l) as (Hsus & Hlast & Hlev & Hren).
    rewrite <- E in Hsus, Hlast, Hlev, Hren.
    assert (H0 : 0 <= lastFrameTime l).
    { destruct Hp as [_ Hh]. destruct (rendered l) as [|t0 rest] eqn:Er.
      - rewrite (Hnil eq_refl). discriminate.
      - rewrite Hh. inversion Hall as [|? ? Ht0 _]; subst.
        pose proof (frameInterval_pos (performanceLevel l)). lra. }
    unfold due in Hd. apply Qle_bool_iff in Hd.
    unfold loopInv. rewrite Hlev, Hren.
    split.
    { rewrite E. now destruct (negb (prefersReducedMotion l)). }
    split; [exact Hp'|]. split.
    { constructor; [lra | exact Hall]. }
    split; [discriminate|]. split.
    + intros [H | H]; [congruence|].
      assert (Hr : prefersReducedMotion l = true).
      { destruct (animate_closure host t dt l) as (_ & _ & _ & <- & _).
        exact H. }
      rewrite E, Hr. cbn. apply Hz. now right.
    + rewrite E. now destruct (negb (prefersReducedMotion l)).
Qed.

Lemma newLoop_loopInv (host : Host) (d : Deps) (level : PerformanceLevel)
    (g m : Resource) (id r : nat) :
  loopInv (newLoop d level (newMesh g m) (newOrbits host level id r)).
Proof.
  unfold loopInv, paced. cbn.
  split; [reflexivity|]. split; [split; exact I|]. split; [constructor|].
  split; [reflexivity|]. split; [|reflexivity].
  intros _. unfold newOrbits. apply Forall_map, Forall_forall.
  reflexivity.
Qed.

(** ** Elapsed time *)

Lemma elapsed_time_adds_up (host : Host) (dts : list Q) (l : Loop) :
  length (orbits (moves host dts l)) = length (orbits l)
  /\ (forall i o,
        nth_error (orbits l) i = Some o ->
        exists o',
          nth_error (orbits (moves host dts l)) i = Some o'
          /\ angle (userData o')
             == angle (userData o) + speed (userData o) * total dts
          /\ height (userData o')
             == height (userData o)
                + verticalSpeed (userData o) * total dts * 0.5
          /\ Vec3.y (rotation (mesh o'))
             == Vec3.y (rotation (mesh o)) + total dts * 0.5
          /\ radius (userData o') = radius (userData o)
          /\ speed (userData o') = speed (userData o)
          /\ verticalSpeed (userData o') = verticalSpeed (userData o))
  /\ Vec3.y (rotation (core (moves host dts l)))
     == Vec3.y (rotation (core l)) + total dts * 0.2
  /\ Vec3.x (rotation (core (moves host dts l)))
     == Vec3.x (rotation (core l)) + total dts * 0.1.
Proof.
  revert l. induction dts as [|d dts IH]; intros l.
  - change (total []) with 0. cbn [moves fold_left].
    split; [reflexivity|]. split; [|split; ring].
    intros i o Hi. exists o. split; [exact Hi|].
    split; [ring|]. split; [ring|]. split; [ring|]. repeat split.
  - change (moves host (d :: dts) l) with (moves host dts (move host d l)).
    change (total (d :: dts)) with (d + total dts).
    destruct (IH (move host d l)) as (Hlen & Ho & Hy & Hx).
    split; [rewrite Hlen; apply length_map|]. split; [|split].
    + intros i o Hi.
      destruct (Ho i (moveSphere host d o))
        as (o' & Hi' & Ha & Hh & Hr & E1 & E2 & E3).
      { cbn. now apply map_nth_error. }
      exists o'. split; [exact Hi'|]. cbn in Ha, Hh, Hr, E1, E2, E3.
      split; [rewrite Ha; ring|]. split; [rewrite Hh; ring|].
      split; [rewrite Hr; ring|]. repeat split; assumption.
    + rewrite Hy. cbn. ring.
    + rewrite Hx. cbn. ring.
Qed.

Lemma moves_fields (host : Host) (dts : list Q) (l : Loop) :
  orbits (moves host dts l)
  = fold_left (fun os dt => map (moveSphere host dt) os) dts (orbits l)
  /\ core (moves host dts l)
     = fold_left (fun c dt => rotateCore dt c) dts (core l).
Proof.
  revert l. induction dts as [|d dts IH]; intros l; [split; reflexivity|].
  change (moves host (d :: dts) l) with (moves host dts (move host d l)).
  destruct (IH (move host d l)) as [-> ->]. split; reflexivity.
Qed.

Lemma ticks_moves (host : Host) (fs : list (Q * Q)) (l : Loop) :
  prefersReducedMotion l = false ->
  orbits (ticks host fs l) = orbits (moves host (rendering host fs l) l)
  /\ core (ticks host fs l) = core (moves host (rendering host fs l) l).
Proof.
  revert l. induction fs as [|f fs IH]; intros l Hr; [split; reflexivity|].
  rewrite ticks_cons. cbn [rendering].
  assert (Hr' : prefersReducedMotion (animate host (fst f) (snd f) l) = false).
  { destruct (animate_closure host (fst f) (snd f) l) as (_ & _ & _ & -> & _).
    exact Hr. }
  destruct (IH _ Hr') as [-> ->].
  set (l1 := animate host (fst f) (snd f) l).
  destruct (moves_fields host (rendering host fs l1) l1) as [-> ->].
  destruct (suspended l) eqn:Hs; cbn [negb andb app].
  - destruct (moves_fields host (rendering host fs l1) l) as [-> ->].
    subst l1. rewrite (animate_suspended host _ _ l Hs). split; reflexivity.
  - destruct (due (fst f) l) eqn:Hd; cbn [app].
    + destruct (moves_fields host (snd f :: rendering host fs l1) l) as [-> ->].
      subst l1. rewrite (animate_due host _ _ l Hs Hd), Hr. split; reflexivity.
    + destruct (moves_fields host (rendering host fs l1) l) as [-> ->].
      subst l1. rewrite (animate_early host _ _ l Hs Hd). split; reflexivity.
Qed.

(** X4: in exact arithmetic only the total elapsed time counts.  Over
    any frame ticks of a loop whose motion is not reduced, with [total]
    the sum of the elapsed times of the frames that rendered, the angle
    of every sphere has advanced by its speed times [total], its
    vertical phase by its vertical speed times [total] times 0.5, its
    own rotation by [total] times 0.5 and the core's by [total] times
    0.2 and 0.1: how the time is split into frames changes nothing. *)
Theorem rendered_time_adds_up (host : Host) (fs : list (Q * Q)) (l : Loop) :
  prefersReducedMotion l = false ->
  let elapsed := total (rendering host fs l) in
  (forall i o,
      nth_error (orbits l) i = Some o ->
      exists o',
        nth_error (orbits (ticks host fs l)) i = Some o'
        /\ angle (userData o')
           == angle (userData o) + speed (userData o) * elapsed
        /\ height (userData o')
           == height (userData o) + verticalSpeed (userData o) * elapsed * 0.5
        /\ Vec3.y (rotation (mesh o'))
           == Vec3.y (rotation (mesh o)) + elapsed * 0.5)
  /\ Vec3.y (rotation (core (ticks host fs l)))
     == Vec3.y (rotation (core l)) + elapsed * 0.2
  /\ Vec3.x (rotation (core (ticks host fs l)))
     == Vec3.x (rotation (core l)) + elapsed * 0.1.
Proof.
  intros Hr elapsed. subst elapsed.
  destruct (ticks_moves host fs l Hr) as [-> ->].
  destruct (elapsed_time_adds_up host (rendering host fs l) l)
    as (_ & Ho & Hy & Hx).
  split; [|split; assumption].
  intros i o Hi. destruct (Ho i o Hi) as (o' & H1 & H2 & H3 & H4 & _).
  exists o'. repeat split; assumption.
Qed.

(** ** What every run of the loop keeps *)

Lemma runInv_idle (host : Host) (e : EffectRun) :
  (forall l, stage e <> Looping l) -> runInv host e.
Proof. intros H l Hl. now elim (H l). Qed.

Lemma inRange_moveSphere (host : Host) (dt : Q) (os : list Orbit) :
  Forall (fun o => inRange (userData o)) os ->
  Forall (fun o => inRange (userData o)) (map (moveSphere host dt) os).
Proof.
  intros H. apply Forall_map. eapply Forall_impl; [|exact H].
  intros o Ho. exact Ho.
Qed.

Lemma animate_inRange (host : Host) (t dt : Q) (l : Loop) :
  Forall (fun o => inRange (userData o)) (orbits l) ->
  Forall (fun o => inRange (userData o)) (orbits (animate host t dt l)).
Proof.
  intros H.
  destruct (animate_cases host t dt l) as [-> | (_ & _ & ->)]; [exact H|].
  destruct (negb (prefersReducedMotion l)); [|exact H].
  now apply inRange_moveSphere.
Qed.

Lemma newOrbits_inRange (host : Host) (level : PerformanceLevel) (id r : nat) :
  randomInRange host ->
  Forall (fun o => inRange (userData o)) (newOrbits host level id r).
Proof.
  intros Hrand. unfold newOrbits. apply Forall_map, Forall_forall.
  intros i _. unfold inRange.
  cbn [newOrbit userData radius speed verticalSpeed].
  pose proof (Hrand (r + 4 * i)%nat) as [? ?].
  pose proof (Hrand (r + 4 * i + 2)%nat) as [? ?].
  pose proof (Hrand (r + 4 * i + 3)%nat) as [? ?].
  repeat split; lra.
Qed.

Lemma frame_runInv (host : Host) (t dt : Q) (c : Component) :
  runInv host (effect c) -> runInv host (effect (frame host t dt c)).
Proof.
  intros H. unfold frame.
  destruct (stage (effect c)) as [| |l| |] eqn:Hs; try exact H.
  cbn. intros l' [= <-].
  destruct (H l Hs) as (Hv & Hp & Hr & Hlev & Hlen & Hreq & Hinv & Hrange).
  destruct (animate_closure host t dt l) as (_ & -> & -> & -> & -> & ->).
  rewrite animate_requested.
  repeat split; try assumption; try lia;
    try (apply animate_loopInv; exact Hinv).
  intros Hrand. apply animate_inRange, Hrange, Hrand.
Qed.

Lemma construct_runInv (host : Host) (c : Component) :
  runInv host (effect (construct host c)).
Proof.
  unfold construct. cbn [effect stage deps]. intros l [= <-].
  match goal with
  | |- context [animate host 0 0 ?l0] =>
      destruct (animate_closure host 0 0 l0) as (_ & -> & -> & -> & -> & ->);
      rewrite (animate_requested host 0 0 l0)
  end.
  cbn [newLoop isVisible paused prefersReducedMotion performanceLevel orbits
       requested].
  split; [reflexivity|]. split; [reflexivity|]. split; [reflexivity|].
  split; [reflexivity|].
  split; [unfold newOrbits; now rewrite length_map, length_seq|].
  split; [lia|]. split; [apply animate_loopInv, newLoop_loopInv|].
  intros Hrand. apply animate_inRange. cbn. now apply newOrbits_inRange.
Qed.

Lemma cleanup_runInv (host : Host) (c c' : Component) :
  cleanup c = Returned c' -> runInv host (effect c').
Proof.
  intros H. apply runInv_idle. intros l Hl.
  destruct (cleanup_frame _ _ H) as (_ & _ & Hs & _).
  rewrite Hs in Hl. now apply stop_not_looping in Hl.
Qed.

Lemma initEffect_runInv (host : Host) (c : Component) :
  runInv host (effect (initEffect host c)).
Proof.
  apply runInv_idle. intros l Hl.
  destruct (initEffect_frame host c) as (_ & _ & _ & _ & _ & Hn).
  unfold loopOf in Hn. now rewrite Hl in Hn.
Qed.

Lemma unmount_runInv (host : Host) (c c' : Component) :
  runInv host (effect c) -> unmount c = Returned c' -> runInv host (effect c').
Proof.
  unfold unmount. intros H Hu.
  destruct (stage (effect c)) eqn:Hs;
    try (now apply (cleanup_runInv host) in Hu).
  injection Hu as <-. exact H.
Qed.

Lemma rerender_runInv (host : Host) (p r v : bool) (c c' : Component) :
  runInv host (effect c) -> rerender host p r v c = Returned c' ->
  runInv host (effect c').
Proof.
  unfold rerender. intros H Hr.
  destruct (state_error c); [now apply (unmount_runInv host c c')|].
  unfold commit in Hr. destruct (Deps_eqb _ _).
  - injection Hr as <-. exact H.
  - cbn [with_inputs effect stage] in Hr.
    destruct (stage (effect c));
      try (destruct (cleanup _); [|discriminate]);
      injection Hr as <-; apply initEffect_runInv.
Qed.

Lemma importSettled_runInv (host : Host) (res : ImportResult) (c : Component) :
  runInv host (effect c) -> runInv host (effect (importSettled host res c)).
Proof.
  intros H. unfold importSettled.
  destruct (stage (effect c)) as [|m| | |] eqn:Hs; try exact H.
  destruct res as [|ok]; destruct m; cbn [negb]; try destruct ok;
    try apply construct_runInv;
    apply runInv_idle; cbn; discriminate.
Qed.

Lemma step_runInv (host : Host) (e : Event) (c c' : Component) :
  runInv host (effect c) -> step host c e = Returned c' ->
  runInv host (effect c').
Proof.
  unfold step. intros H Hs.
  destruct (negb (mountRef c)); [now injection Hs as <-|].
  destruct e as [p r|hidden|res|t dt|].
  - eapply rerender_runInv; [exact H | exact Hs].
  - eapply rerender_runInv; [exact H | exact Hs].
  - injection Hs as <-. now apply importSettled_runInv.
  - injection Hs as <-. now apply frame_runInv.
  - now apply (unmount_runInv host c c').
Qed.

Lemma reachable_runInv (host : Host) (c : Component) :
  reachable host c -> runInv host (effect c).
Proof.
  intros (p & r & es & H).
  assert (G : forall es c0, runInv host (effect c0) ->
                            run host es c0 = Returned c ->
                            runInv host (effect c)).
  { clear. induction es as [|e es IH]; intros c0 H0 Hr; cbn in Hr.
    - now injection Hr as <-.
    - destruct (step host c0 e) as [c1|c1] eqn:E; [|discriminate].
      apply (IH c1); [|exact Hr]. now apply (step_runInv host e c0 c1). }
  apply (G es (mount host p r)); [|exact H]. apply initEffect_runInv.
Qed.

(** X2: in every state the component can reach, the frames the current
    run has rendered are at least one frame interval apart, none has a
    timestamp below the frame interval, and a tick with a timestamp
    below the frame interval renders nothing (so [animate(0)] never
    does); a frame request is always outstanding. *)
Theorem render_log_paced (host : Host) (c : Component) (l : Loop) :
  reachable host c -> stage (effect c) = Looping l ->
  spaced (frameInterval (performanceLevel l)) (rendered l)
  /\ Forall (fun t => frameInterval (performanceLevel l) <= t) (rendered l)
  /\ (forall t dt,
        t < frameInterval (performanceLevel l) ->
        rendered (animate host t dt l) = rendered l)
  /\ (1 <= requested l)%nat.
Proof.
  intros Hr Hs.
  destruct (reachable_runInv host c Hr l Hs)
    as (_ & _ & _ & _ & _ & Hreq & (Hm & Hp & Hall & Hnil & _ & _) & _).
  split; [apply Hp|]. split; [exact Hall|]. split; [|exact Hreq].
  intros t dt Ht.
  assert (H0 : 0 <= lastFrameTime l).
  { destruct Hp as [_ Hh]. destruct (rendered l) as [|t0 rest] eqn:Er.
    - rewrite (Hnil eq_refl). discriminate.
    - rewrite Hh. inversion Hall as [|? ? Ht0 _]; subst.
      pose proof (frameInterval_pos (performanceLevel l)). lra. }
  destruct (animate_cases host t dt l) as [-> | (_ & Hd & _)]; [reflexivity|].
  unfold due in Hd. apply Qle_bool_iff in Hd. lra.
Qed.

(** X3: when [Math.random()] stays in its range, in every state the
    component can reach every sphere of the running loop has its radius
    between 2 and 3.5, its speed between 0.2 and 0.5 and its vertical
    speed between 0.1 and 0.3, the ends included: creation puts them
    there and no frame assigns them.  (The upper ends are included
    because a floating-point sum can round up to them; with the exact
    sums of this model they are not reached.) *)
Theorem sphere_parameters_in_range (host : Host) (c : Component) (l : Loop) :
  randomInRange host ->
  reachable host c -> stage (effect c) = Looping l ->
  Forall (fun o =>
            (2 <= radius (userData o) /\ radius (userData o) <= 3.5)
            /\ (0.2 <= speed (userData o) /\ speed (userData o) <= 0.5)
            /\ (0.1 <= verticalSpeed (userData o)
                /\ verticalSpeed (userData o) <= 0.3))
         (orbits l).
Proof.
  intros Hrand Hr Hs.
  destruct (reachable_runInv host c Hr l Hs)
    as (_ & _ & _ & _ & _ & _ & _ & H).
  apply Forall_impl with (2 := H Hrand).
  unfold inRange. intros o ((? & ?) & (? & ?) & ? & ?).
  repeat split; try assumption; now apply Qlt_le_weak.
Qed.

(** X5: in every state the component can reach, a frame tick of the
    running loop calls [renderer.render] exactly when the page is
    visible, [paused] is false and one frame interval has passed since
    the last rendered frame; otherwise it renders nothing and moves
    nothing.  Either way it requests the next frame. *)
Theorem frame_renders_iff (host : Host) (c : Component) (l : Loop) (t dt : Q) :
  reachable host c -> stage (effect c) = Looping l ->
  exists l',
    stage (effect (frame host t dt c)) = Looping l'
    /\ (state_isVisible c = true /\ prop_paused c = false
        /\ frameInterval (performanceLevel l) <= t - lastFrameTime l ->
        rendered l' = t :: rendered l /\ lastFrameTime l' = t)
    /\ (state_isVisible c = false \/ prop_paused c = true
        \/ t - lastFrameTime l < frameInterval (performanceLevel l) ->
        rendered l' = rendered l /\ orbits l' = orbits l
        /\ core l' = core l /\ lastFrameTime l' = lastFrameTime l)
    /\ requested l' = S (requested l).
Proof.
  intros Hr Hs.
  destruct (reachable_runInv host c Hr l Hs)
    as (Hv & Hp & _ & _ & _ & _ & (Hm & _) & _).
  destruct (reachable_inSync host c Hr) as [Hd _].
  rewrite Hd in Hv, Hp. cbn in Hv, Hp.
  exists (animate host t dt l).
  split; [unfold frame; now rewrite Hs|].
  split; [|split; [|apply animate_requested]].
  - intros (Hvis & Hpa & Hle).
    assert (Hsus : suspended l = false).
    { unfold suspended. now rewrite Hm, Hv, Hp, Hvis, Hpa. }
    assert (Hdue : due t l = true) by now apply Qle_bool_iff.
    destruct (after_render host t dt l) as (_ & Hlast & _ & Hren).
    rewrite <- (animate_due host t dt l Hsus Hdue) in Hlast, Hren.
    split; assumption.
  - intros H.
    assert (E : animate host t dt l = requestAnimationFrame l).
    { destruct (animate_cases host t dt l) as [E | (Hsus & Hdue & _)];
        [exact E | exfalso].
      unfold suspended in Hsus. rewrite Hm, Hv, Hp in Hsus.
      unfold due in Hdue. apply Qle_bool_iff in Hdue.
      destruct H as [H | [H | H]];
        [rewrite H in Hsus; discriminate
        | rewrite H in Hsus; cbn in Hsus; now rewrite orb_true_r in Hsus
        | lra]. }
    rewrite E. repeat split.
Qed.

(** X6: in a run with reduced motion, or paused, or with the page
    hidden, no sphere is ever given a position: in every state the
    component can reach, all spheres of such a loop are at the origin,
    where [new THREE.Mesh] put them (and inside the core, which reduced
    motion still renders). *)
Theorem still_spheres_at_origin (host : Host) (c : Component) (l : Loop) :
  reachable host c -> stage (effect c) = Looping l ->
  prop_prefersReducedMotion c = true \/ prop_paused c = true
  \/ state_isVisible c = false ->
  Forall (fun o => position (mesh o) = Vec3.zero) (orbits l)
  /\ position (core l) = Vec3.zero.
Proof.
  intros Hr Hs H.
  destruct (reachable_runInv host c Hr l Hs)
    as (Hv & Hp & Hrm & _ & _ & _ & (Hm & _ & _ & _ & Hz & Hc) & _).
  destruct (reachable_inSync host c Hr) as [Hd _].
  rewrite Hd in Hv, Hp, Hrm. cbn in Hv, Hp, Hrm.
  split.
  - apply Hz. unfold suspended. rewrite Hv, Hp, Hrm.
    destruct H as [-> | [-> | ->]]; [now right | left | left];
      rewrite ?orb_true_r; reflexivity.
  - exact Hc.
Qed.

(** X7: the tier holds for the lifetime of the component: in every
    state it can reach, after any number of rebuilds, the running loop
    has the tier that the capability probe gives for the host, the
    frame interval of that tier and as many spheres as the tier says. *)
Theorem tier_fixed_across_rebuilds (host : Host) (c : Component) (l : Loop) :
  reachable host c -> stage (effect c) = Looping l ->
  performanceLevel l = getPerformanceLevel (navigator host)
  /\ length (orbits l) = orbitCount (getPerformanceLevel (navigator host))
  /\ frameInterval (performanceLevel l)
     = 1000 / targetFPS (getPerformanceLevel (navigator host)).
Proof.
  intros Hr Hs.
  destruct (reachable_runInv host c Hr l Hs) as (_ & _ & _ & Hl & Hn & _).
  rewrite Hl. repeat split. exact Hn.
Qed.

(** ** The canvas and the refs *)

(** X8: while the component is mounted, the host [div] never holds more
    than one canvas: it holds the canvas of [rendererRef] while the
    loop runs and none otherwise, in every state the component can
    reach. *)
Theorem at_most_one_canvas (host : Host) (c : Component) :
  reachable host c -> mountRef c = true ->
  (length (container c) <= 1)%nat
  /\ (forall l, stage (effect c) = Looping l ->
                exists r, rendererRef c = Some r
                          /\ container c = [domElement r])
  /\ (loopOf c = None -> container c = []).
Proof.
  intros Hr Hm.
  destruct (reachable_sound host c Hr Hm) as [Hh | [Hw | Hf]].
  - destruct Hh as (_ & _ & l & r & g & Hs & Hren & Hc & _).
    rewrite Hc. split; [cbn; lia|]. split.
    + intros l' _. exists r. split; [exact Hren | reflexivity].
    + unfold loopOf. now rewrite Hs.
  - destruct Hw as (_ & _ & Hs & Hc & _). rewrite Hc.
    split; [cbn; lia|]. split; [|reflexivity].
    intros l Hl. rewrite Hs in Hl. discriminate.
  - destruct Hf as (_ & Hs & Hc). rewrite Hc.
    split; [cbn; lia|]. split; [|reflexivity].
    intros l Hl. rewrite Hs in Hl. discriminate.
Qed.

Lemma cleanup_refs (c c' : Component) :
  cleanup c = Returned c' ->
  sceneRef c' = sceneRef c /\ rendererRef c' = rendererRef c.
Proof.
  destruct c as [? ? ? ? mr ? rr sr [d s] ? ? ? ? ? ?].
  unfold cleanup, cleanupScene. cbn.
  destruct rr as [r|]; [destruct mr|].
  - destruct (existsb _ _); [|discriminate].
    intros [= <-]. destruct sr; split; reflexivity.
  - intros [= <-]. destruct sr; split; reflexivity.
  - intros [= <-]. destruct sr; split; reflexivity.
Qed.

(** X9: with the loop running, the cleanup detaches the canvas and
    disposes the renderer exactly when the ref of the host [div] is
    still set (the cleanup a changed dependency runs); with the ref
    detached (the cleanup of the unmount) it does neither, and the
    renderer of the last run stays undisposed.  The geometries and
    materials of the scene are disposed either way, and neither cleanup
    clears [sceneRef] or [rendererRef]. *)
Theorem renderer_released_iff_ref (host : Host) (c : Component) (l : Loop)
    (r : Renderer) :
  reachable host c -> mountRef c = true -> stage (effect c) = Looping l ->
  rendererRef c = Some r ->
  (exists c',
      cleanup (with_mountRef true c) = Returned c'
      /\ container c' = [] /\ released c' = released c ++ [domElement r]
      /\ disposed c' = allocated c
      /\ rendererRef c' = Some r /\ sceneRef c' = sceneRef c)
  /\ (exists c',
        unmount c = Returned c'
        /\ cleanup (with_mountRef false c) = Returned c'
        /\ container c' = [domElement r] /\ released c' = released c
        /\ disposed c' = allocated c
        /\ rendererRef c' = Some r /\ sceneRef c' = sceneRef c).
Proof.
  intros Hr Hm Hs Hren.
  pose proof (reachable_looping host c l Hr Hm Hs) as Hh.
  assert (Hu : unmount c = cleanup (with_mountRef false c)).
  { unfold unmount. now rewrite Hs. }
  rewrite Hu.
  destruct Hh as (He & Ha & l' & r' & g & Hs' & Hren' & Hc & Hg & Hal).
  rewrite Hren in Hren'. injection Hren' as <-.
  destruct c as [? ? ? ? ? ? ? ? [d s] ? ? ? ? ? ?].
  cbn in He, Hs, Hs', Hren, Hc, Hg, Hal, Hm. subst.
  unfold cleanup, cleanupScene. cbn. rewrite Nat.eqb_refl. cbn.
  split.
  - eexists. split; [reflexivity|]. cbn.
    destruct (Nat.eq_dec (domElement r) (domElement r)); [|congruence].
    repeat split.
  - eexists. split; [reflexivity|]. split; [reflexivity|]. cbn.
    repeat split.
Qed.

(** ** After a failure *)

Lemma failed_step (host : Host) (e : Event) (c : Component) :
  failed c ->
  exists c',
    step host c e = Returned c'
    /\ failed c' /\ scenes c' = scenes c /\ allocated c' = allocated c.
Proof.
  intros Hf. pose proof Hf as (He & Hs & Hc).
  assert (U : exists c', unmount c = Returned c' /\ failed c'
                         /\ scenes c' = scenes c /\ allocated c' = allocated c).
  { clear Hf. destruct c as [? ? ? ? ? ? rr sr [d s] ? ? ? ? ? ?].
    cbn in He, Hs, Hc. subst.
    unfold unmount, cleanup, cleanupScene, failed. cbn.
    destruct rr, sr; eexists; (split; [reflexivity|]); repeat split. }
  unfold step. destruct (negb (mountRef c)).
  { exists c. repeat split; assumption. }
  destruct e as [p r|hidden|res|t dt|].
  - unfold rerender. rewrite He. exact U.
  - unfold rerender. rewrite He. exact U.
  - exists c. unfold importSettled. rewrite Hs. repeat split; assumption.
  - exists c. unfold frame. rewrite Hs. repeat split; assumption.
  - exact U.
Qed.

(** X10: no retry.  Once an initialisation has failed and reported its
    error, no sequence of events starts a loop, builds a scene or
    attaches a canvas again, and no cleanup raises: the failure is
    permanent for the component. *)
Theorem no_retry_after_failure (host : Host) (c : Component)
    (es : list Event) :
  reachable host c -> mountRef c = true -> state_error c = true ->
  exists c',
    run host es c = Returned c'
    /\ state_error c' = true /\ loopOf c' = None /\ container c' = []
    /\ scenes c' = scenes c /\ allocated c' = allocated c.
Proof.
  intros Hr Hm He.
  pose proof (reachable_error host c Hr Hm He) as Hf. clear Hr Hm He.
  revert c Hf. induction es as [|e es IH]; intros c Hf.
  - exists c. destruct Hf as (He & Hs & Hc).
    unfold loopOf. rewrite Hs. repeat split; assumption.
  - destruct (failed_step host e c Hf) as (c1 & Hstep & Hf1 & Hsc & Hal).
    destruct (IH c1 Hf1) as (c' & Hrun & H1 & H2 & H3 & H4 & H5).
    exists c'. cbn. rewrite Hstep. repeat split; try assumption; congruence.
Qed.

Lemma rerender_changed (host : Host) (p r v : bool) (c : Component) :
  healthy c -> mountRef c = true -> deps (effect c) = currentDeps c ->
  (p, r, v)
  <> (prop_paused c, prop_prefersReducedMotion c, state_isVisible c) ->
  exists c1,
    rerender host p r v c = Returned (initEffect host c1)
    /\ mountRef c1 = true /\ state_error c1 = false
    /\ sceneRef c1 = sceneRef c /\ rendererRef c1 = rendererRef c
    /\ disposed c1 = allocated c /\ allocated c1 = allocated c
    /\ container c1 = [].
Proof.
  intros Hh Hm Hd Hneq.
  pose proof Hh as (He & _).
  unfold rerender, commit. rewrite He.
  destruct (Deps_eqb _ _) eqn:E.
  { apply Deps_eqb_eq in E. cbn in E. rewrite Hd in E.
    unfold currentDeps in E. injection E as E1 E2 E3.
    exfalso. apply Hneq. congruence. }
  pose proof Hh as (_ & _ & l & _ & _ & Hs & _).
  cbn [with_inputs effect]. rewrite Hs.
  destruct (healthy_cleanup true (with_inputs p r v c))
    as (c1 & Hc & Hdis & Hal & _ & He1 & Hm1 & _ & Hcont & _).
  { now apply with_inputs_sound. }
  rewrite with_mountRef_same in Hc by exact Hm. rewrite Hc.
  destruct (cleanup_refs _ _ Hc) as [Hsr Hrr].
  exists c1. split; [reflexivity|]. split; [exact Hm1|]. split; [exact He1|].
  split; [exact Hsr|]. split; [exact Hrr|].
  split; [rewrite Hdis; exact Hal|]. split; [exact Hal|]. now apply Hcont.
Qed.

(** X11: the cleanup never clears [sceneRef].  When a dependency
    changes while the loop runs and the initialisation that follows
    fails (no WebGL, the import rejected, or a constructor that throws),
    the unmount that the error brings traverses the scene of the
    previous run again: each of its geometries and materials, already
    disposed by the first cleanup, is disposed a second time. *)
Theorem stale_scene_disposed_twice (host : Host) (c : Component) (l : Loop)
    (g : Object3D) (p r v : bool) (res : ImportResult) :
  reachable host c -> mountRef c = true -> stage (effect c) = Looping l ->
  sceneRef c = Some g ->
  (p, r, v)
  <> (prop_paused c, prop_prefersReducedMotion c, state_isVisible c) ->
  WebGLRenderingContext host = false
  \/ res = ImportRejected \/ res = ImportResolved false ->
  exists c1 c3,
    rerender host p r v c = Returned c1
    /\ disposed c1 = allocated c
    /\ state_error (importSettled host res c1) = true
    /\ unmount (importSettled host res c1) = Returned c3
    /\ disposed c3 = allocated c ++ disposeScene g
    /\ forall x, In x (disposeScene g) ->
                 count_occ Resource_eq_dec (disposed c3) x = 2%nat.
Proof.
  intros Hr Hm Hs Hg Hneq Hfail.
  pose proof (reachable_looping host c l Hr Hm Hs) as Hh.
  destruct (reachable_inSync host c Hr) as [Hd _].
  destruct (rerender_changed host p r v c Hh Hm Hd Hneq)
    as (c1 & Hre & Hm1 & He1 & Hsr & Hrr & Hdis & Hal & Hcont).
  rewrite Hg in Hsr.
  assert (Hcount : forall x, In x (disposeScene g) ->
            count_occ Resource_eq_dec (allocated c ++ disposeScene g) x = 2%nat).
  { destruct Hh as (_ & [Hnd _] & _ & _ & g' & _ & _ & _ & Hg' & Hag).
    rewrite Hg in Hg'. injection Hg' as <-.
    intros x Hx. rewrite count_occ_app.
    assert (H1 : count_occ Resource_eq_dec (allocated c) x = 1%nat).
    { apply NoDup_count_occ'; [exact Hnd|]. rewrite Hag.
      apply in_or_app. now right. }
    assert (H2 : count_occ Resource_eq_dec (disposeScene g) x = 1%nat).
    { apply NoDup_count_occ'; [|exact Hx].
      rewrite Hag in Hnd. now apply NoDup_app_remove_l in Hnd. }
    lia. }
  assert (T : exists c3,
             disposed (initEffect host c1) = allocated c
             /\ state_error (importSettled host res (initEffect host c1)) = true
             /\ unmount (importSettled host res (initEffect host c1))
                = Returned c3
             /\ disposed c3 = allocated c ++ disposeScene g).
  { clear Hre Hcount.
    destruct c1 as [? ? ? ? ? ? rr sr [d s] ? ? ? ? ? ?].
    cbn in Hm1, He1, Hsr, Hdis, Hal, Hcont. subst.
    unfold initEffect. cbn [mountRef negb].
    destruct (WebGLRenderingContext host) eqn:Hgl; cbn [negb].
    - destruct Hfail as [Hf | [-> | ->]]; [discriminate| |];
        unfold importSettled, unmount, cleanup, cleanupScene; cbn;
        destruct rr; eexists; repeat split.
    - unfold importSettled, unmount, cleanup, cleanupScene; cbn;
        destruct rr; eexists; repeat split. }
  destruct T as (c3 & T1 & T2 & T3 & T4).
  exists (initEffect host c1), c3.
  split; [exact Hre|]. split; [exact T1|]. split; [exact T2|].
  split; [exact T3|]. split; [exact T4|]. rewrite T4. exact Hcount.
Qed.

(** ** Resizing *)

Lemma pageStep_component (host : Host) (p p' : Page) (e : PageEvent) :
  pageStep host p e = Some p' ->
  match e with
  | OnCanvas ev => step host (component p) ev = Returned (component p')
  | _ => component p' = component p
  end.
Proof.
  destruct e as [ev|w h|dpr]; cbn.
  - destruct (step host (component p) ev); [|discriminate].
    now intros [= <-].
  - now intros [= <-].
  - now intros [= <-].
Qed.

Lemma pageRun_component (host : Host) (es : list PageEvent) (p p' : Page) :
  pageRun host es p = Some p' ->
  run host (canvasEvents es) (component p) = Returned (component p').
Proof.
  revert p. induction es as [|e es IH]; intros p H; cbn in H.
  - now injection H as <-.
  - destruct (pageStep host p e) as [p1|] eqn:E; [|discriminate].
    pose proof (pageStep_component host p p1 e E) as Hc.
    destruct e as [ev|w h|dpr]; cbn [canvasEvents flat_map app].
    + cbn [run]. rewrite Hc. now apply IH.
    + rewrite <- Hc. now apply IH.
    + rewrite <- Hc. now apply IH.
Qed.

Lemma pageReachable_component (host : Host) (p : Page) :
  pageReachable host p -> reachable host (component p).
Proof.
  intros (pa & prm & w & h & dpr & es & H).
  exists pa, prm, (canvasEvents es).
  now apply pageRun_component in H.
Qed.

Lemma js_div_cases (a b : Q) :
  (~ b == 0 -> js_div a b = JsFinite (a / b))
  /\ (b == 0 -> ~ a == 0 -> js_div a b = JsInfinity (Qle_bool a 0))
  /\ (b == 0 -> a == 0 -> js_div a b = JsNaN).
Proof.
  unfold js_div.
  destruct (Qeq_bool b 0) eqn:Eb; [apply Qeq_bool_iff in Eb|].
  - destruct (Qeq_bool a 0) eqn:Ea; [apply Qeq_bool_iff in Ea|].
    + repeat split; tauto.
    + assert (~ a == 0).
      { intros H. apply Qeq_bool_iff in H. congruence. }
      repeat split; tauto.
  - assert (~ b == 0).
    { intros H. apply Qeq_bool_iff in H. congruence. }
    repeat split; tauto.
Qed.

Lemma Math_min_le (a b : Q) : Math_min a b <= b /\ Math_min a b <= a.
Proof.
  unfold Math_min. destruct (Qle_bool a b) eqn:E.
  - apply Qle_bool_iff in E. split; [exact E | apply Qle_refl].
  - split; [apply Qle_refl|].
    destruct (Qlt_le_dec b a) as [H | H]; [now apply Qlt_le_weak|].
    apply Qle_bool_iff in H. congruence.
Qed.

(** A loop that runs after an event was built by it or ran before. *)
Lemma looping_origin (host : Host) (ev : Event) (c c' : Component) :
  step host c ev = Returned c' -> constructs c ev = false ->
  liveMounted c' = true -> mountRef c' = true ->
  liveMounted c = true /\ mountRef c = true.
Proof.
  unfold step, constructs. intros Hs Hc Hl Hm.
  destruct (mountRef c) eqn:Hmc; cbn [negb andb] in Hs, Hc;
    [|injection Hs as <-; congruence].
  split; [|reflexivity].
  assert (U : forall c0, unmount c0 = Returned c' -> False).
  { intros c0 Hu.
    assert (mountRef c' = false); [|congruence].
    unfold unmount in Hu. destruct (stage (effect c0));
      try (now destruct (cleanup_frame _ _ Hu) as (_ & _ & _ & _ & -> & _)).
    now injection Hu as <-. }
  assert (R : forall p r v, rerender host p r v c = Returned c' ->
                            liveMounted c = true).
  { intros p r v Hr. unfold rerender in Hr.
    destruct (state_error c); [now elim (U c)|].
    unfold commit in Hr. destruct (Deps_eqb _ _).
    - injection Hr as <-. exact Hl.
    - exfalso. cbn [with_inputs effect stage] in Hr.
      assert (I : forall c1, c' = initEffect host c1 -> False).
      { intros c1 ->. destruct (initEffect_frame host c1) as (_ & _ & _ & _ & _ & Hn).
        unfold liveMounted in Hl. unfold loopOf in Hn.
        destruct (stage (effect (initEffect host c1))); discriminate. }
      destruct (stage (effect c));
        try (destruct (cleanup _); [|discriminate]);
        injection Hr as Hr; symmetry in Hr; now apply I in Hr. }
  destruct ev as [p r|hidden|res|t dt|].
  - now apply R in Hs.
  - now apply R in Hs.
  - injection Hs as <-. unfold liveMounted, importSettled in *.
    destruct (stage (effect c)) as [|m|l|l|] eqn:Es.
    + now rewrite Es in Hl.
    + exfalso. destruct res as [|ok]; destruct m; cbn [negb] in Hl;
        try destruct ok; try discriminate Hc; cbn in Hl; discriminate.
    + now rewrite Es in Hl.
    + now rewrite Es in Hl.
    + now rewrite Es in Hl.
  - injection Hs as <-. unfold liveMounted, frame in *.
    destruct (stage (effect c)) as [|m|l|l|] eqn:Es.
    + now rewrite Es in Hl.
    + now rewrite Es in Hl.
    + cbn in Hl. now destruct (animate_closure host t dt l) as (<- & _).
    + now rewrite Es in Hl.
    + now rewrite Es in Hl.
  - now elim (U c).
Qed.

Lemma pageStep_viewsInv (host : Host) (p p' : Page) (e : PageEvent) :
  viewsInv p -> pageStep host p e = Some p' -> viewsInv p'.
Proof.
  intros [Hall Hlive] Hs.
  destruct e as [ev|w h|dpr]; cbn in Hs; [| |now injection Hs as <-].
  - destruct (step host (component p) ev) as [c'|] eqn:E; [|discriminate].
    injection Hs as <-. unfold viewsInv. cbn [views component clientWidth
      clientHeight devicePixelRatio].
    destruct (constructs (component p) ev) eqn:Ec.
    + split.
      * constructor; [|exact Hall]. cbn. split; [reflexivity|].
        apply Math_min_le.
      * intros _ _. exists (newView p), (views p). repeat split.
    + split; [exact Hall|]. intros Hl Hm.
      destruct (looping_origin host ev _ _ E Ec Hl Hm) as [Hl0 Hm0].
      exact (Hlive Hl0 Hm0).
  - injection Hs as <-. unfold viewsInv, resize. cbn [views component
      clientWidth clientHeight devicePixelRatio].
    destruct (views p) as [|v vs] eqn:Ev.
    + split; [constructor|]. intros Hl Hm.
      destruct (Hlive Hl Hm) as (? & ? & ? & _). discriminate.
    + inversion Hall as [|? ? Hv Hvs]; subst. split.
      * constructor; [|exact Hvs]. unfold handleResize.
        destruct (negb _ || negb _); [exact Hv|]. cbn.
        split; [reflexivity | apply Hv].
      * intros Hl Hm. unfold handleResize. rewrite Hl, Hm. cbn.
        do 2 eexists. repeat split.
Qed.

Lemma pageReachable_viewsInv (host : Host) (p : Page) :
  pageReachable host p -> viewsInv p.
Proof.
  intros (pa & prm & w & h & dpr & es & H).
  assert (G : forall es p0, viewsInv p0 -> pageRun host es p0 = Some p ->
                            viewsInv p).
  { clear. induction es as [|e es IH]; intros p0 H0 Hr; cbn in Hr.
    - now injection Hr as <-.
    - destruct (pageStep host p0 e) as [p1|] eqn:E; [|discriminate].
      apply (IH p1); [|exact Hr]. now apply (pageStep_viewsInv host p0 p1 e). }
  apply (G es (pageMount host pa prm w h dpr)); [|exact H].
  split; [constructor|]. cbn. unfold liveMounted, mount, initEffect. cbn.
  destruct (WebGLRenderingContext host); cbn; discriminate.
Qed.

(** X12: the camera and the renderer follow the host [div].  In every
    state the page can reach, through any interleaving of resizes,
    changes of [window.devicePixelRatio], pauses, visibility changes
    and rebuilds: every camera has the aspect that JavaScript's
    division gives for its renderer's size (the quotient when the
    height is not 0, no number when it is 0: [Infinity] or [NaN]) and
    no pixel ratio exceeds 2; while the loop runs, the renderer has the
    size the host [div] had at the last resize (or at the
    initialisation) and the camera its aspect; a resize then sets both
    to the new size, keeps the pixel ratio of the construction and
    touches nothing of the component (no scene object, no resource, no
    loop state); while no loop runs, a resize changes no camera and no
    renderer; a change of [window.devicePixelRatio] changes none
    either. *)
Theorem views_follow_host (host : Host) (p : Page) :
  pageReachable host p ->
  Forall (fun v =>
            View.aspect v = js_div (View.width v) (View.height v)
            /\ (~ View.height v == 0 ->
                View.aspect v = JsFinite (View.width v / View.height v))
            /\ (View.height v == 0 -> forall q, View.aspect v <> JsFinite q)
            /\ View.pixelRatio v <= 2) (views p)
  /\ (forall l,
        stage (effect (component p)) = Looping l ->
        mountRef (component p) = true ->
        exists v vs,
          views p = v :: vs
          /\ View.width v = clientWidth p /\ View.height v = clientHeight p
          /\ View.aspect v = js_div (clientWidth p) (clientHeight p)
          /\ forall w h,
               exists v',
                 views (resize w h p) = v' :: vs
                 /\ View.width v' = w /\ View.height v' = h
                 /\ View.aspect v' = js_div w h
                 /\ View.pixelRatio v' = View.pixelRatio v)
  /\ (forall w h,
        component (resize w h p) = component p
        /\ (loopOf (component p) = None ->
            views (resize w h p) = views p))
  /\ (forall dpr,
        exists p',
          pageStep host p (DevicePixelRatioChange dpr) = Some p'
          /\ devicePixelRatio p' = dpr
          /\ views p' = views p /\ component p' = component p).
Proof.
  intros Hr. pose proof (pageReachable_viewsInv host p Hr) as [Hall Hlive].
  pose proof (pageReachable_component host p Hr) as Hrc.
  split; [|split; [|split]].
  - apply Forall_impl with (2 := Hall). intros v [Ha Hp].
    destruct (js_div_cases (View.width v) (View.height v)) as (F & I & N).
    split; [exact Ha|]. split; [intros H; now rewrite Ha, (F H)|].
    split; [|exact Hp].
    intros H q. rewrite Ha.
    destruct (Qeq_dec (View.width v) 0) as [Z | Z].
    + rewrite (N H Z). discriminate.
    + rewrite (I H Z). discriminate.
  - intros l Hs Hm.
    assert (Hl : liveMounted (component p) = true).
    { unfold liveMounted. rewrite Hs.
      now destruct (reachable_runInv host _ Hrc l Hs)
        as (_ & _ & _ & _ & _ & _ & (Hmt & _) & _). }
    destruct (Hlive Hl Hm) as (v & vs & Ev & Hw & Hh).
    exists v, vs. split; [exact Ev|]. split; [exact Hw|]. split; [exact Hh|].
    split.
    + rewrite Ev in Hall. inversion Hall as [|? ? (Ha & _) _]; subst.
      now rewrite Ha, Hw, Hh.
    + intros w h. unfold resize. cbn [views]. rewrite Ev, Hl, Hm.
      unfold handleResize. cbn. eexists. repeat split.
  - intros w h. split; [reflexivity|]. intros Hn.
    unfold resize. cbn [views].
    assert (Hl : liveMounted (component p) = false).
    { unfold liveMounted, loopOf in *.
      now destruct (stage (effect (component p))). }
    rewrite Hl. unfold handleResize. rewrite orb_true_r.
    now destruct (views p).
  - intros dpr. eexists. repeat split.
Qed.

(** ** The resize listeners *)

Lemma length_resourcesOf (ns : list nat) :
  length (resourcesOf ns) = (2 * length ns)%nat.
Proof.
  unfold resourcesOf. induction ns as [|n ns IH]; [reflexivity|].
  cbn [flat_map app length]. rewrite IH. lia.
Qed.

Lemma step_allocated (host : Host) (ev : Event) (c c' : Component) :
  step host c ev = Returned c' ->
  length (allocated c')
  = ((if constructs c ev
      then 2 * S (orbitCount (getPerformanceLevel (navigator host))) else 0)
     + length (allocated c))%nat.
Proof.
  unfold step, constructs. intros Hs.
  destruct (mountRef c) eqn:Hm; cbn [negb andb] in *;
    [|now injection Hs as <-].
  assert (U : forall c0, unmount c0 = Returned c' ->
                         allocated c' = allocated c0).
  { intros c0 Hu. unfold unmount in Hu. destruct (stage (effect c0));
      try (now destruct (cleanup_frame _ _ Hu)
             as (_ & _ & _ & _ & _ & _ & -> & _)).
    now injection Hu as <-. }
  assert (R : forall p r v, rerender host p r v c = Returned c' ->
                            allocated c' = allocated c).
  { intros p r v Hr. unfold rerender in Hr.
    destruct (state_error c); [now apply U|].
    unfold commit in Hr. destruct (Deps_eqb _ _).
    - now injection Hr as <-.
    - cbn [with_inputs effect stage] in Hr.
      destruct (stage (effect c));
        try (destruct (cleanup _) as [c1|] eqn:Ec; [|discriminate];
             destruct (cleanup_frame _ _ Ec)
               as (_ & _ & _ & _ & _ & _ & Hal & _));
        injection Hr as <-;
        match goal with
        | |- allocated (initEffect host ?x) = _ =>
            destruct (initEffect_frame host x) as (_ & _ & -> & _)
        end; try exact Hal; reflexivity. }
  destruct ev as [p r|hidden|res|t dt|].
  - now rewrite (R _ _ _ Hs).
  - now rewrite (R _ _ _ Hs).
  - injection Hs as <-. unfold importSettled.
    destruct res as [|[|]]; destruct (stage (effect c)) as [|[|]| | |];
      cbn [negb]; try reflexivity.
    unfold construct. cbn [allocated]. rewrite length_app, sceneResources_ids.
    rewrite length_resourcesOf, length_seq. lia.
  - injection Hs as <-. unfold frame.
    now destruct (stage (effect c)).
  - now rewrite (U _ Hs).
Qed.

(** X13: no cleanup removes a resize listener.  Every initialisation
    that completes registers one [handleResize] on the window, and in
    every state the page can reach there are as many as scenes were
    built (the geometries and materials ever created are those of that
    many scenes): neither the cleanup of a changed dependency nor the
    unmount takes one away.  After the unmount a resize runs them all
    without effect. *)
Theorem resize_listeners_accumulate (host : Host) (p : Page) :
  pageReachable host p ->
  length (allocated (component p))
  = (length (views p)
     * (2 * S (orbitCount (getPerformanceLevel (navigator host)))))%nat
  /\ (forall e p',
        pageStep host p e = Some p' ->
        (length (views p) <= length (views p'))%nat)
  /\ (forall c',
        unmount (component p) = Returned c' ->
        mountRef (component p) = true ->
        exists p',
          pageStep host p (OnCanvas Unmount) = Some p'
          /\ views p' = views p
          /\ forall w h, views (resize w h p') = views p).
Proof.
  intros Hr. split; [|split].
  - destruct Hr as (pa & prm & w & h & dpr & es & H).
    assert (G : forall es p0,
               length (allocated (component p0))
               = (length (views p0)
                  * (2 * S (orbitCount (getPerformanceLevel (navigator host)))))%nat ->
               pageRun host es p0 = Some p ->
               length (allocated (component p))
               = (length (views p)
                  * (2 * S (orbitCount (getPerformanceLevel (navigator host)))))%nat).
    { clear. induction es as [|e es IH]; intros p0 H0 Hr; cbn in Hr.
      - now injection Hr as <-.
      - destruct (pageStep host p0 e) as [p1|] eqn:E; [|discriminate].
        apply (IH p1); [|exact Hr]. clear IH Hr.
        destruct e as [ev|w h|dpr]; cbn in E.
        + destruct (step host (component p0) ev) as [c'|] eqn:Es;
            [|discriminate].
          injection E as <-. cbn [component views].
          rewrite (step_allocated host ev _ _ Es), H0.
          destruct (constructs (component p0) ev); cbn [length]; lia.
        + injection E as <-. cbn [component views resize].
          rewrite H0. now destruct (views p0).
        + now injection E as <-. }
    apply (G es (pageMount host pa prm w h dpr)); [|exact H].
    cbn. unfold mount, initEffect. cbn.
    now destruct (WebGLRenderingContext host).
  - intros e p' Hs. destruct e as [ev|w h|dpr]; cbn in Hs.
    + destruct (step host (component p) ev); [|discriminate].
      injection Hs as <-. cbn.
      destruct (constructs (component p) ev); cbn; lia.
    + injection Hs as <-. cbn. destruct (views p); cbn; lia.
    + injection Hs as <-. cbn. lia.
  - intros c' Hu Hm. cbn. unfold step. rewrite Hm. cbn [negb]. rewrite Hu.
    unfold constructs. cbn. rewrite andb_false_r.
    eexists. split; [reflexivity|]. split; [reflexivity|].
    intros w h. unfold resize. cbn.
    assert (Hd : mountRef c' = false).
    { unfold unmount in Hu. destruct (stage (effect (component p)));
        try (now destruct (cleanup_frame _ _ Hu) as (_ & _ & _ & _ & -> & _)).
      now injection Hu as <-. }
    rewrite Hd. unfold handleResize. cbn. now destruct (views p).
Qed.

(** ** The hero section *)

Lemma Qle_bool_false (x y : Q) : Qle_bool x y = false <-> y < x.
Proof.
  split.
  - intros E. destruct (Qlt_le_dec y x) as [H | H]; [exact H|].
    apply Qle_bool_iff in H. congruence.
  - intros H. destruct (Qle_bool x y) eqn:E; [|reflexivity].
    apply Qle_bool_iff in E. lra.
Qed.

(** X14: the hero section loads the canvas only on a device that
    reports at least four processors, a viewport at least 900 wide and
    no data saver.  So wherever the canvas runs, the processor count is
    reported and the default 4 of [getPerformanceLevel] is never used
    for it; a device with exactly four processors gets the canvas at
    the low tier, and the tier is high exactly when more than four
    processors and more than 4 of device memory are reported.  A
    device that reports no processor count never gets the canvas. *)
Theorem canvas_needs_four_processors (d : Device) :
  (hardwareConcurrency (deviceNavigator d) = JsUndefined ->
   checkCapabilities d false = false)
  /\ (checkCapabilities d false = true ->
      exists hc,
        hardwareConcurrency (deviceNavigator d) = JsNum hc
        /\ 4 <= hc /\ 900 <= innerWidth d
        /\ connection d <> ConnectionInfo (Some true)
        /\ or_default (JsNum hc) 4 = hc
        /\ (hc == 4 -> getPerformanceLevel (deviceNavigator d) = low)
        /\ (getPerformanceLevel (deviceNavigator d) = high
            <-> 4 < hc
                /\ exists m, deviceMemory (deviceNavigator d) = JsNum m
                             /\ 4 < m)).
Proof.
  destruct d as [[hcv memv] conn iw]. unfold checkCapabilities. cbn.
  split; [now intros ->|].
  destruct hcv as [|hc]; [discriminate|]. cbn.
  destruct (Qle_bool 4 hc) eqn:Ehc; [|discriminate]. cbn [andb].
  apply Qle_bool_iff in Ehc.
  destruct (Qle_bool 900 iw) eqn:Eiw;
    [|rewrite andb_false_r; cbn; intros X; discriminate X].
  apply Qle_bool_iff in Eiw. rewrite andb_true_r. intros Hconn.
  exists hc. split; [reflexivity|]. split; [exact Ehc|]. split; [exact Eiw|].
  split.
  { intros ->. cbn in Hconn. discriminate. }
  assert (Hz : Qeq_bool hc 0 = false).
  { destruct (Qeq_bool hc 0) eqn:E; [|reflexivity].
    apply Qeq_bool_iff in E. lra. }
  split; [now rewrite Hz|].
  unfold getPerformanceLevel. cbn. rewrite Hz. split.
  - intros E. assert (Hle : Qle_bool hc 4 = true).
    { apply Qle_bool_iff. lra. }
    now rewrite Hle.
  - destruct (Qle_bool hc 4) eqn:E4; cbn [orb].
    + split; [discriminate|]. intros [H _].
      apply Qle_bool_iff in E4. lra.
    + apply Qle_bool_false in E4.
      destruct memv as [|m]; cbn.
      * split; [discriminate|]. intros (_ & m & [=] & _).
      * destruct (Qeq_bool m 0) eqn:Em.
        -- split; [discriminate|]. intros (_ & m' & [= <-] & Hm).
           apply Qeq_bool_iff in Em. lra.
        -- destruct (Qle_bool m 4) eqn:E; split; try discriminate.
           ++ intros (_ & m' & [= <-] & Hm).
              apply Qle_bool_iff in E. lra.
           ++ intros _. split; [exact E4|]. exists m.
              split; [reflexivity|]. now apply Qle_bool_false.
           ++ reflexivity.
Qed.

(** [find] returns the first element that passes. *)
Lemma find_first {A : Type} (f : A -> bool) (l : list A) (x : A) :
  find f l = Some x ->
  f x = true
  /\ exists l1 l2, l = l1 ++ x :: l2 /\ forall y, In y l1 -> f y = false.
Proof.
  induction l as [|a l IH]; [discriminate|]. cbn.
  destruct (f a) eqn:E.
  - intros [= <-]. split; [exact E|]. exists [], l. split; [reflexivity|].
    intros y [].
  - intros H. destruct (IH H) as (Hx & l1 & l2 & -> & Hl1).
    split; [exact Hx|]. exists (a :: l1), l2. split; [reflexivity|].
    intros y [<- | Hy]; [exact E | now apply Hl1].
Qed.

Lemma connected_tryConnect (throws : Connector -> bool) (c : Connector) :
  connected (tryConnect throws c) = [c].
Proof. unfold tryConnect. now destruct (throws c). Qed.

(** X15: [handleGetStarted] calls [connect] at most once.  With a
    wallet already connected it never calls it.  Otherwise it connects
    through the first connector of type injected, wherever it stands in
    the list; through the first of type walletConnect only when no
    connector is injected; and when the list has neither (an empty list
    too) it only shows the no-wallet error. *)
Theorem get_started_connects_once (isConnected walletConnected : bool)
    (connectors : list Connector) (throws : Connector -> bool) :
  let acts := handleGetStarted isConnected walletConnected connectors throws in
  (length (connected acts) <= 1)%nat
  /\ (isConnected || walletConnected = true ->
      connected acts = [] /\ In (SetWalletConnected true) acts)
  /\ (isConnected || walletConnected = false ->
      (forall c,
          In c (connected acts) ->
          (connectorType c = "injected"%string
           \/ (connectorType c = "walletConnect"%string
               /\ forall c', In c' connectors ->
                             connectorType c' <> "injected"%string))
          /\ exists l1 l2,
               connectors = l1 ++ c :: l2
               /\ forall c', In c' l1 -> connectorType c' <> connectorType c)
      /\ ((exists c, In c connectors
                     /\ (connectorType c = "injected"%string
                         \/ connectorType c = "walletConnect"%string)) ->
          connected acts <> [])
      /\ ((forall c, In c connectors ->
                     connectorType c <> "injected"%string
                     /\ connectorType c <> "walletConnect"%string) ->
          acts
          = [ToastError
               "No wallet found. Please install a Web3 wallet or use WalletConnect."%string])).
Proof.
  intros acts. subst acts. unfold handleGetStarted.
  assert (F : forall t c,
             find (isType t) connectors = Some c ->
             connectorType c = t
             /\ exists l1 l2,
                  connectors = l1 ++ c :: l2
                  /\ forall c', In c' l1 -> connectorType c' <> connectorType c).
  { intros t c H. apply find_first in H as (Ht & l1 & l2 & E & Hl1).
    apply String.eqb_eq in Ht. split; [exact Ht|].
    exists l1, l2. split; [exact E|]. intros c' Hc'.
    rewrite Ht. apply String.eqb_neq. now apply Hl1. }
  assert (N : forall t, find (isType t) connectors = None ->
                        forall c, In c connectors -> connectorType c <> t).
  { intros t H c Hc. apply String.eqb_neq.
    exact (find_none _ _ H c Hc). }
  destruct (isConnected || walletConnected).
  { cbn. split; [lia|]. split; [|discriminate].
    intros _. split; [reflexivity | now right; left]. }
  split; [|split; [discriminate|intros _]].
  - destruct (find (isType "injected"%string) connectors);
      [now rewrite connected_tryConnect|].
    destruct (find (isType "walletConnect"%string) connectors);
      [now rewrite connected_tryConnect | cbn; lia].
  - destruct (find (isType "injected"%string) connectors) as [ci|] eqn:Ei.
    + rewrite connected_tryConnect. destruct (F _ _ Ei) as [Ht Hfirst].
      split; [|split].
      * intros c [<- | []]. split; [now left | exact Hfirst].
      * discriminate.
      * intros H. destruct Hfirst as (l1 & l2 & -> & _).
        destruct (H ci) as [H1 _]; [apply in_or_app; right; now left|].
        contradiction.
    + pose proof (N _ Ei) as Hni.
      destruct (find (isType "walletConnect"%string) connectors)
        as [cw|] eqn:Ew.
      * rewrite connected_tryConnect. destruct (F _ _ Ew) as [Ht Hfirst].
        split; [|split].
        -- intros c [<- | []]. split; [right; split; assumption | exact Hfirst].
        -- discriminate.
        -- intros H. destruct Hfirst as (l1 & l2 & -> & _).
           destruct (H cw) as [_ H2]; [apply in_or_app; right; now left|].
           contradiction.
      * pose proof (N _ Ew) as Hnw. cbn. split; [intros c []|]. split.
        -- intros (c & Hc & [H | H]);
             [now elim (Hni c Hc) | now elim (Hnw c Hc)].
        -- reflexivity.
Qed.

(** ** Further concrete runs *)

Lemma smallRunning_reachable : reachable smallHost smallRunning.
Proof.
  exists false, false,
    [ImportSettled (ImportResolved true); AnimationFrame 100 0].
  reflexivity.
Qed.

Lemma demoFailed_reachable : reachable demoHost demoFailed.
Proof. exists false, false, [ImportSettled ImportRejected]. reflexivity. Qed.

Lemma demoHost_randomInRange : randomInRange demoHost.
Proof. intros n. cbn. split; [discriminate | reflexivity]. Qed.

(** In a host [div] of height 0 the camera's aspect is [Infinity], and
    the pixel ratio set at construction stays when the density of the
    window changes. *)
Example flatPage_view :
  match flatPage with
  | Some p =>
      devicePixelRatio p = 3
      /\ map View.aspect (views p) = [JsInfinity false]
      /\ map View.pixelRatio (views p) = [1]
  | None => False
  end.
Proof. vm_compute. repeat split. Qed.

Lemma demoPage_reachable : pageReachable demoHost demoPage.
Proof.
  exists false, false, 800, 600, 3, demoPageEvents. reflexivity.
Qed.

Lemma rendered_time_witness :
  prefersReducedMotion lowLoop = false
  /\ Vec3.y (rotation (core (ticks smallHost [(100, 1 # 10); (200, 1 # 10)]
                                   lowLoop)))
     == Vec3.y (rotation (core lowLoop))
        + total (rendering smallHost [(100, 1 # 10); (200, 1 # 10)] lowLoop)
          * 0.2.
Proof.
  split; [reflexivity|].
  exact (proj1 (proj2 (rendered_time_adds_up smallHost
                         [(100, 1 # 10); (200, 1 # 10)] lowLoop eq_refl))).
Defined.

Lemma render_log_witness :
  reachable smallHost smallRunning
  /\ Forall (fun t => frameInterval (performanceLevel
                                       (animate smallHost 100 0 lowLoop)) <= t)
            (rendered (animate smallHost 100 0 lowLoop)).
Proof.
  split; [exact smallRunning_reachable|].
  exact (proj1 (proj2 (render_log_paced smallHost smallRunning
                         (animate smallHost 100 0 lowLoop)
                         smallRunning_reachable eq_refl))).
Defined.

Lemma sphere_parameters_witness :
  randomInRange demoHost
  /\ Forall (fun o =>
               (2 <= radius (userData o) /\ radius (userData o) <= 3.5)
               /\ (0.2 <= speed (userData o) /\ speed (userData o) <= 0.5)
               /\ (0.1 <= verticalSpeed (userData o)
                   /\ verticalSpeed (userData o) <= 0.3))
            (orbits idleLoop).
Proof.
  split; [exact demoHost_randomInRange|].
  exact (sphere_parameters_in_range demoHost demoPaused idleLoop
           demoHost_randomInRange
           (started_reachable demoHost eq_refl true false) eq_refl).
Defined.

Lemma frame_renders_witness :
  reachable smallHost smallRunning
  /\ exists l',
       stage (effect (frame smallHost 150 (1 # 20) smallRunning)) = Looping l'
       /\ (state_isVisible smallRunning = true
           /\ prop_paused smallRunning = false
           /\ frameInterval (performanceLevel (animate smallHost 100 0 lowLoop))
              <= 150 - lastFrameTime (animate smallHost 100 0 lowLoop) ->
           rendered l' = 150 :: rendered (animate smallHost 100 0 lowLoop)
           /\ lastFrameTime l' = 150)
       /\ (state_isVisible smallRunning = false
           \/ prop_paused smallRunning = true
           \/ 150 - lastFrameTime (animate smallHost 100 0 lowLoop)
              < frameInterval (performanceLevel (animate smallHost 100 0 lowLoop)) ->
           rendered l' = rendered (animate smallHost 100 0 lowLoop)
           /\ orbits l' = orbits (animate smallHost 100 0 lowLoop)
           /\ core l' = core (animate smallHost 100 0 lowLoop)
           /\ lastFrameTime l'
              = lastFrameTime (animate smallHost 100 0 lowLoop))
       /\ requested l' = S (requested (animate smallHost 100 0 lowLoop)).
Proof.
  split; [exact smallRunning_reachable|].
  exact (frame_renders_iff smallHost smallRunning
           (animate smallHost 100 0 lowLoop) 150 (1 # 20)
           smallRunning_reachable eq_refl).
Defined.

Lemma still_spheres_witness :
  prop_paused demoPaused = true
  /\ Forall (fun o => position (mesh o) = Vec3.zero) (orbits idleLoop).
Proof.
  split; [reflexivity|].
  exact (proj1 (still_spheres_at_origin demoHost demoPaused idleLoop
                  (started_reachable demoHost eq_refl true false) eq_refl
                  (or_intror (or_introl eq_refl)))).
Defined.

Lemma tier_fixed_witness :
  reachable smallHost smallRunning
  /\ performanceLevel (animate smallHost 100 0 lowLoop)
     = getPerformanceLevel (navigator smallHost).
Proof.
  split; [exact smallRunning_reachable|].
  exact (proj1 (tier_fixed_across_rebuilds smallHost smallRunning
                  (animate smallHost 100 0 lowLoop)
                  smallRunning_reachable eq_refl)).
Defined.

Lemma one_canvas_witness :
  mountRef smallRunning = true /\ (length (container smallRunning) <= 1)%nat.
Proof.
  split; [reflexivity|].
  exact (proj1 (at_most_one_canvas smallHost smallRunning
                  smallRunning_reachable eq_refl)).
Defined.

Lemma renderer_released_witness :
  rendererRef smallRunning = Some {| domElement := 0; antialias := false |}
  /\ exists c',
       cleanup (with_mountRef true smallRunning) = Returned c'
       /\ container c' = []
       /\ released c' = released smallRunning ++ [0%nat]
       /\ disposed c' = allocated smallRunning
       /\ rendererRef c' = Some {| domElement := 0; antialias := false |}
       /\ sceneRef c' = sceneRef smallRunning.
Proof.
  split; [reflexivity|].
  exact (proj1 (renderer_released_iff_ref smallHost smallRunning
                  (animate smallHost 100 0 lowLoop)
                  {| domElement := 0; antialias := false |}
                  smallRunning_reachable eq_refl eq_refl eq_refl)).
Defined.

Lemma no_retry_witness :
  state_error demoFailed = true
  /\ exists c',
       run demoHost [ImportSettled (ImportResolved true); AnimationFrame 100 0]
           demoFailed = Returned c'
       /\ state_error c' = true /\ loopOf c' = None /\ container c' = []
       /\ scenes c' = scenes demoFailed
       /\ allocated c' = allocated demoFailed.
Proof.
  split; [reflexivity|].
  exact (no_retry_after_failure demoHost demoFailed
           [ImportSettled (ImportResolved true); AnimationFrame 100 0]
           demoFailed_reachable eq_refl eq_refl).
Defined.

Lemma stale_scene_witness :
  reachable smallHost smallRunning
  /\ exists c1 c3,
       rerender smallHost true false true smallRunning = Returned c1
       /\ disposed c1 = allocated smallRunning
       /\ state_error (importSettled smallHost (ImportResolved false) c1) = true
       /\ unmount (importSettled smallHost (ImportResolved false) c1)
          = Returned c3
       /\ disposed c3
          = allocated smallRunning
            ++ disposeScene
                 (sceneGraph (newMesh (Geometry 1) (Material 1))
                             (newOrbits smallHost low 2 0))
       /\ forall x,
            In x (disposeScene
                    (sceneGraph (newMesh (Geometry 1) (Material 1))
                                (newOrbits smallHost low 2 0))) ->
            count_occ Resource_eq_dec (disposed c3) x = 2%nat.
Proof.
  split; [exact smallRunning_reachable|].
  refine (stale_scene_disposed_twice smallHost smallRunning
            (animate smallHost 100 0 lowLoop)
            (sceneGraph (newMesh (Geometry 1) (Material 1))
                        (newOrbits smallHost low 2 0))
            true false true (ImportResolved false)
            smallRunning_reachable eq_refl eq_refl eq_refl _
            (or_intror (or_intror eq_refl))).
  discriminate.
Defined.

Lemma views_follow_witness :
  pageReachable demoHost demoPage
  /\ Forall (fun v =>
               View.aspect v = js_div (View.width v) (View.height v)
               /\ (~ View.height v == 0 ->
                   View.aspect v = JsFinite (View.width v / View.height v))
               /\ (View.height v == 0 ->
                   forall q, View.aspect v <> JsFinite q)
               /\ View.pixelRatio v <= 2)
            (views demoPage).
Proof.
  split; [exact demoPage_reachable|].
  exact (proj1 (views_follow_host demoHost demoPage demoPage_reachable)).
Defined.

Lemma resize_listeners_witness :
  pageReachable demoHost demoPage
  /\ length (allocated (component demoPage))
     = (length (views demoPage)
        * (2 * S (orbitCount (getPerformanceLevel (navigator demoHost)))))%nat.
Proof.
  split; [exact demoPage_reachable|].
  exact (proj1 (resize_listeners_accumulate demoHost demoPage
                  demoPage_reachable)).
Defined.

Lemma canvas_needs_witness :
  checkCapabilities demoDevice false = true
  /\ exists hc,
       hardwareConcurrency (deviceNavigator demoDevice) = JsNum hc
       /\ 4 <= hc /\ 900 <= innerWidth demoDevice
       /\ connection demoDevice <> ConnectionInfo (Some true)
       /\ or_default (JsNum hc) 4 = hc
       /\ (hc == 4 -> getPerformanceLevel (deviceNavigator demoDevice) = low)
       /\ (getPerformanceLevel (deviceNavigator demoDevice) = high
           <-> 4 < hc
               /\ exists m, deviceMemory (deviceNavigator demoDevice) = JsNum m
                            /\ 4 < m).
Proof.
  split; [reflexivity|].
  exact (proj2 (canvas_needs_four_processors demoDevice) eq_refl).
Defined.

Lemma get_started_witness :
  connected (handleGetStarted false false demoConnectors (fun _ => false))
  <> [].
Proof.
  refine (proj1 (proj2 (proj2 (proj2
            (get_started_connects_once false false demoConnectors
               (fun _ => false))) eq_refl)) _).
  exists {| connectorId := 1; connectorType := "injected"%string |}.
  split; [right; left; reflexivity | left; reflexivity].
Defined.

(** X16: an import that settles after the cleanup builds nothing.  When
    the cleanup runs while [initThreeJS] still awaits the import, the
    continuation finds [mounted] false whatever the import brings: it
    creates no scene and no resource, attaches nothing, starts no loop
    and reports no error; it only ends the run. *)
Theorem late_import_builds_nothing (host : Host) (c c' : Component)
    (res : ImportResult) (b : bool) :
  stage (effect c) = Importing true ->
  cleanup (with_mountRef b c) = Returned c' ->
  importSettled host res c' = with_stage Finished c'
  /\ scenes (importSettled host res c') = scenes c
  /\ allocated (importSettled host res c') = allocated c
  /\ state_error (importSettled host res c') = state_error c
  /\ container (importSettled host res c') = container c'
  /\ loopOf (importSettled host res c') = None.
Proof.
  intros Hs Hc.
  destruct (cleanup_frame _ _ Hc) as (_ & _ & Hst & He & _ & Hsc & Hal & _).
  cbn [with_mountRef effect stage] in Hst. rewrite Hs in Hst. cbn in Hst.
  assert (E : importSettled host res c' = with_stage Finished c').
  { unfold importSettled. rewrite Hst. now destruct res as [|[|]]. }
  rewrite E. repeat split; assumption.
Qed.

Lemma late_import_witness :
  stage (effect (mount demoHost false false)) = Importing true
  /\ scenes (importSettled demoHost (ImportResolved true)
               (with_stage (Importing false) (mount demoHost false false)))
     = scenes (mount demoHost false false).
Proof.
  split; [reflexivity|].
  exact (proj1 (proj2 (late_import_builds_nothing demoHost
                         (mount demoHost false false)
                         (with_stage (Importing false)
                                     (mount demoHost false false))
                         (ImportResolved true) true eq_refl eq_refl))).
Defined.
